(** * Target-group binder: the reconciler of [src/main.py]

    A shallow embedding of [get_target_groups_for_node],
    [register_instance_to_target_groups] and [main], and the properties of
    the reconciliation result and of the provider calls it issues. *)

From stdpp Require Import base option list strings gmap.
From Stdlib Require Import ZArith.

Open Scope string_scope.
Open Scope Z_scope.
Open Scope list_scope.

(** ** Python outcomes

    A call either returns a value or raises; the text is [str(e)]. *)

Inductive outcome (A : Type) : Type :=
| Returned (a : A)
| Raised (e : string).
Arguments Returned {A} a.
Arguments Raised {A} e.

(** ** The result dictionary of one reconcile call *)

(** A failure record: [{'arn': ..., 'operation': ..., 'error': ...}]; the
    whole-operation records carry no ['arn'] key. *)
Record failure : Type := Failure {
  failure_arn : option string;
  operation : string;
  error : string }.

(** [results = {'registered': [], 'already_registered': [],
    'deregistered': [], 'failed': []}] *)
Record results : Type := Results {
  registered : list string;
  already_registered : list string;
  deregistered : list string;
  failed : list failure }.

Definition no_results : results := Results [] [] [] [].

(** A desired binding, [{'arn': ..., 'port': ...}]. *)
Record target_group : Type := TargetGroup {
  arn : string;
  port : Z }.

(** ** The load-balancer client

    Every call made through the client during one reconcile call is
    recorded together with what it gave back. *)

Inductive call : Type :=
| describe_target_health_call (TargetGroupArn : string)
    (response : outcome (list string))
| deregister_targets_call (TargetGroupArn Id : string) (response : outcome unit)
| register_targets_call (TargetGroupArn Id : string) (response : outcome unit).

(** [boto3.client('elbv2', ...)]. The paginator of [describe_target_groups]
    yields [pages] (each page given by the [TargetGroupArn]s of its
    ['TargetGroups']) and then stops, or raises [paginate_error] once those
    pages have been consumed. The three other operations answer as a function
    of their arguments and of the calls made before on this client, so an
    answer may change from one call to the next. A [describe_target_health]
    response is given by the [Target.Id]s of its
    ['TargetHealthDescriptions']. *)
Record elb_client : Type := ElbClient {
  pages : list (list string);
  paginate_error : option string;
  describe_target_health : list call → string → outcome (list string);
  deregister_targets : list call → string → string → outcome unit;
  register_targets : list call → string → string → outcome unit }.

(** The mutable part of a reconcile call: the [results] dictionary and the
    calls issued so far, oldest first. *)
Record state : Type := State {
  res : results;
  calls : list call }.

Definition record_call (c : call) (s : state) : state :=
  State (res s) (calls s ++ [c]).

(** [results['registered'].append(a)] and its three siblings. *)
Definition append_registered (a : string) (s : state) : state :=
  let r := res s in
  State (Results (registered r ++ [a]) (already_registered r)
                 (deregistered r) (failed r)) (calls s).

Definition append_already_registered (a : string) (s : state) : state :=
  let r := res s in
  State (Results (registered r) (already_registered r ++ [a])
                 (deregistered r) (failed r)) (calls s).

Definition append_deregistered (a : string) (s : state) : state :=
  let r := res s in
  State (Results (registered r) (already_registered r)
                 (deregistered r ++ [a]) (failed r)) (calls s).

Definition append_failed (f : failure) (s : state) : state :=
  let r := res s in
  State (Results (registered r) (already_registered r)
                 (deregistered r) (failed r ++ [f])) (calls s).

(** [for x in l: body], as a state transformer. *)
Definition for_each {A : Type} (body : A → state → state) (l : list A)
  (s : state) : state :=
  foldl (λ s x, body x s) s l.

(** [any(target['Target']['Id'] == instance_id for target in ...)] *)
Definition is_target (instance_id : string) (ids : list string) : bool :=
  bool_decide (instance_id ∈ ids).

Section reconcile.
Variable elb : elb_client.
Variable instance_id : string.

(** Lines 82-91: the body of the discovery loop when [target_groups] is
    empty. The [deregister_targets] call is commented out in the source:
    the ARN is appended to ['deregistered'] and nothing is sent. *)
Definition drain_target_group (tg_arn : string) (s : state) : state :=
  let response := describe_target_health elb (calls s) tg_arn in
  let s := record_call (describe_target_health_call tg_arn response) s in
  match response with
  | Returned ids =>
      if is_target instance_id ids then append_deregistered tg_arn s else s
  | Raised e => append_failed (Failure (Some tg_arn) "deregister" e) s
  end.

(** Lines 103-112: the body of the discovery loop otherwise. *)
Definition check_target_group (tg_arn : string) (s : state) : state :=
  let response := describe_target_health elb (calls s) tg_arn in
  let s := record_call (describe_target_health_call tg_arn response) s in
  match response with
  | Returned ids =>
      if is_target instance_id ids
      then append_already_registered tg_arn s else s
  | Raised e => append_failed (Failure (Some tg_arn) "describe_health" e) s
  end.

(** Lines 120-128: one round of the deregistration loop. *)
Definition deregister_unwanted (target_groups : list target_group)
  (tg : string) (s : state) : state :=
  if bool_decide (tg ∉ arn <$> target_groups) then
    let response := deregister_targets elb (calls s) tg instance_id in
    let s := record_call (deregister_targets_call tg instance_id response) s in
    match response with
    | Returned _ => append_deregistered tg s
    | Raised e => append_failed (Failure (Some tg) "deregister" e) s
    end
  else s.

(** Lines 132-140: one round of the registration loop. *)
Definition register_new (tg : target_group) (s : state) : state :=
  if bool_decide (arn tg ∉ already_registered (res s)) then
    let response := register_targets elb (calls s) (arn tg) instance_id in
    let s :=
      record_call (register_targets_call (arn tg) instance_id response) s in
    match response with
    | Returned _ => append_registered (arn tg) s
    | Raised e => append_failed (Failure (Some (arn tg)) "register" e) s
    end
  else s.

(** [for page in paginator.paginate(): for tg in page['TargetGroups']: ...]
    over the pages the paginator yields. *)
Definition for_each_target_group (body : string → state → state)
  (s : state) : state :=
  for_each (for_each body) (pages elb) s.

(** [register_instance_to_target_groups(aws_region, instance_id,
    target_groups, logger)]: the final [results] together with the calls
    issued. *)
Definition register_instance_to_target_groups
  (target_groups : list target_group) : state :=
  let s := State no_results [] in
  match target_groups with
  | [] =>
      let s := for_each_target_group drain_target_group s in
      match paginate_error elb with
      | Some e => append_failed (Failure None "deregister" e) s
      | None => s
      end
  | _ :: _ =>
      let s := for_each_target_group check_target_group s in
      match paginate_error elb with
      | Some e => append_failed (Failure None "describe_target_groups" e) s
      | None =>
          let s :=
            for_each (deregister_unwanted target_groups)
                     (already_registered (res s)) s in
          for_each register_new target_groups s
      end
  end.
End reconcile.

(** ** The node-configuration response

    [response.json()] as a value: [None], [True]/[False], a number, a
    string, a list or a dict. Numbers are taken to be integers, as a port
    is. A dict is written as the list of its items in the order of the
    response text. *)

#[local] Unset Elimination Schemes.
Inductive json : Type :=
| JNull
| JBool (b : bool)
| JNum (n : Z)
| JStr (s : string)
| JArr (items : list json)
| JObj (fields : list (string * json)).
#[local] Set Elimination Schemes.

(** Sequencing of calls that may raise. *)
#[export] Instance outcome_ret : MRet outcome := λ _ a, Returned a.
#[export] Instance outcome_bind : MBind outcome := λ _ _ k m,
  match m with
  | Returned a => k a
  | Raised e => Raised e
  end.

(** Truth value of an object, as [if x], [not x] and [and] test it. *)
Definition truthy (v : json) : bool :=
  match v with
  | JNull => false
  | JBool b => b
  | JNum n => negb (n =? 0)
  | JStr s => negb (String.eqb s "")
  | JArr items => match items with [] => false | _ => true end
  | JObj fields => match fields with [] => false | _ => true end
  end.

(** The value of [key] in a dict; a key written twice in the response keeps
    its last value, as [json.loads] has it. *)
Fixpoint dict_lookup (key : string) (fields : list (string * json))
  : option json :=
  match fields with
  | [] => None
  | (k, v) :: rest =>
      match dict_lookup key rest with
      | Some w => Some w
      | None => if String.eqb k key then Some v else None
      end
  end.

(** [d.get(key, default)]; anything but a dict has no [get]. *)
Definition get (d : json) (key : string) (default : json) : outcome json :=
  match d with
  | JObj fields => Returned (from_option id default (dict_lookup key fields))
  | _ => Raised "AttributeError"
  end.

(** [d[key]] for a string [key]. *)
Definition subscript (d : json) (key : string) : outcome json :=
  match d with
  | JObj fields =>
      match dict_lookup key fields with
      | Some v => Returned v
      | None => Raised "KeyError"
      end
  | _ => Raised "TypeError"
  end.

(** The items a [for] loop draws from a value: the elements of a list, the
    keys of a dict, the characters of a string. *)
Definition iterate (v : json) : outcome (list json) :=
  match v with
  | JArr items => Returned items
  | JObj fields => Returned (JStr ∘ fst <$> fields)
  | JStr s =>
      Returned ((λ c, JStr (String c EmptyString)) <$>
                  String.list_ascii_of_string s)
  | _ => Raised "TypeError"
  end.

(** [len(v)] is defined on the same values. *)
Definition len (v : json) : outcome nat :=
  items ← iterate v; mret (length items).

(** One round of the comprehension of line 63:
    [{'arn': tg['arn'], 'port': tg['port']}] when
    [tg.get('arn') and tg.get('port')], nothing otherwise. *)
Definition select_target_group (tg : json) : outcome (list json) :=
  a ← get tg "arn" JNull;
  keep ← (if truthy a then p ← get tg "port" JNull; mret (truthy p)
          else mret false);
  if keep : bool then
    a ← subscript tg "arn";
    p ← subscript tg "port";
    mret [JObj [("arn", a); ("port", p)]]
  else mret [].

Fixpoint select_target_groups (target_groups : list json)
  : outcome (list json) :=
  match target_groups with
  | [] => mret []
  | tg :: rest =>
      chosen ← select_target_group tg;
      kept ← select_target_groups rest;
      mret (chosen ++ kept)
  end.

(** [get_target_groups_for_node(api_key, cluster_id, node_config_id,
    logger)], as a function of what [fetch_data] gave for the request; an
    error of [fetch_data] is re-raised. *)
Definition get_target_groups_for_node (fetched : outcome json)
  : outcome (list json) :=
  data ← fetched;
  if negb (truthy data) then mret []
  else
    eks ← get data "eks" (JObj []);
    target_groups ← get eks "targetGroups" (JArr []);
    _ ← len target_groups;
    items ← iterate target_groups;
    select_target_groups items.

(** ** One cycle: [main] *)

(** A node of the inventory, with the fields [main] reads:
    [node['id']], [node['instanceId']], [node['name']],
    [node['state']['phase']] and [node.get('labels', {})]. *)
Record node : Type := Node {
  node_id : string;
  instanceId : string;
  node_name : string;
  phase : string;
  labels : gmap string string }.

(** An item of the inventory as the loop of [main] reads it. The reads of
    lines 167-176 and 197 stand outside every [try]:
    [node['state']['phase']] and [labels.get] on the value of
    [node.get('labels', {})] for every item, then [node['id']],
    [node['instanceId']] and [node['name']] for an eligible one and
    [node['name']] for any other. An item on which one of the reads made
    for it raises ([KeyError] for a missing key, [AttributeError] for an
    item without [get] or labels that are no dict, [TypeError] for an item
    or a state that cannot be subscripted by a string) is [malformed], with
    the error; any other item is read as a [node]. *)
Inductive item : Type :=
| well_formed (n : node)
| malformed (e : string).

(** [os.getenv] of the three variables. *)
Record environ : Type := Environ {
  API_KEY : option string;
  CLUSTER_ID : option string;
  AWS_REGION : option string }.

(** What the cycle talks to. [get_cluster_nodes] and [node_target_groups]
    stand for the two control-plane requests, the first one giving the
    items of the inventory as the loop reads them, the second one being
    [get_target_groups_for_node] with the bindings of its answer read as
    [target_group]s; [boto3_client] is [boto3.client('elbv2', ...)], which
    may depend on the calls made earlier in the cycle. *)
Record services : Type := Services {
  get_cluster_nodes : string → string → outcome (list item);
  node_target_groups :
    string → string → option string → outcome (list target_group);
  boto3_client : string → list call → outcome elb_client }.

(** What the cycle logs for a node. *)
Inductive node_report : Type :=
| skipped
| target_groups_failed (e : string)
| operation_results (result : results) (issued : list call)
| registration_failed (e : string).

(** The provider calls issued while a node was processed. *)
Definition issued_calls (r : node_report) : list call :=
  match r with
  | operation_results _ issued => issued
  | _ => []
  end.

(** How [main] ends: at one of its three early returns, at the end of the
    loop, or with the error a malformed item raises out of the loop, after
    the reports of the nodes before it. *)
Inductive cycle : Type :=
| missing_environment
| nodes_fetch_failed (e : string)
| no_nodes
| processed (reports : list (node * node_report))
| aborted (reports : list (node * node_report)) (e : string).

(** [x] for a set, non-empty variable: [all([...])] takes each value by its
    truth. *)
Definition set_variable (v : option string) : option string :=
  match v with
  | Some s => if bool_decide (s = "") then None else Some s
  | None => None
  end.

(** Line 170: [labels.get('provisioner.cast.ai/managed-by') == "cast.ai"
    and node_state == "ready"]. *)
Definition eligible (n : node) : bool :=
  bool_decide (labels n !! "provisioner.cast.ai/managed-by" = Some "cast.ai")
  && bool_decide (phase n = "ready").

Section main.
Variable w : services.
Variables api_key cluster_id aws_region : string.

(** Lines 167-197: the body of the loop for an item that is read without
    error; [earlier] are the provider calls of the nodes processed
    before. *)
Definition process_node (n : node) (earlier : list call) : node_report :=
  if eligible n then
    let config_id := labels n !! "provisioner.cast.ai/node-configuration-id" in
    match node_target_groups w api_key cluster_id config_id with
    | Raised e => target_groups_failed e
    | Returned target_groups =>
        match boto3_client w aws_region earlier with
        | Raised e => registration_failed e
        | Returned elb =>
            let s :=
              register_instance_to_target_groups elb (instanceId n)
                target_groups in
            operation_results (res s) (calls s)
        end
    end
  else skipped.

(** [for node in cluster_nodes: ...]: the reports of the nodes processed,
    and the error that left the loop, if any. An error of a read is caught
    nowhere: it ends the loop, and [main], at that item. *)
Fixpoint process_nodes (cluster_nodes : list item) (earlier : list call)
  : list (node * node_report) * option string :=
  match cluster_nodes with
  | [] => ([], None)
  | malformed e :: _ => ([], Some e)
  | well_formed n :: rest =>
      let r := process_node n earlier in
      let (reports, err) :=
        process_nodes rest (earlier ++ issued_calls r) in
      ((n, r) :: reports, err)
  end.
End main.

(** [main()]. *)
Definition main (env : environ) (w : services) : cycle :=
  match set_variable (API_KEY env), set_variable (CLUSTER_ID env),
        set_variable (AWS_REGION env) with
  | Some api_key, Some cluster_id, Some aws_region =>
      match get_cluster_nodes w api_key cluster_id with
      | Raised e => nodes_fetch_failed e
      | Returned [] => no_nodes
      | Returned cluster_nodes =>
          match process_nodes w api_key cluster_id aws_region
                  cluster_nodes [] with
          | (reports, None) => processed reports
          | (reports, Some e) => aborted reports e
          end
      end
  | _, _, _ => missing_environment
  end.

(** The per-node reports of a cycle; a cycle that returned early has none. *)
Definition reports_of (c : cycle) : list (node * node_report) :=
  match c with
  | processed reports => reports
  | aborted reports _ => reports
  | _ => []
  end.

(** ** Reading a trace of provider calls *)

(** What was asked, without the answer. *)
Inductive request : Type :=
| describe_target_health_request (TargetGroupArn : string)
| deregister_targets_request (TargetGroupArn Id : string)
| register_targets_request (TargetGroupArn Id : string).

Definition request_of (c : call) : request :=
  match c with
  | describe_target_health_call a _ => describe_target_health_request a
  | deregister_targets_call a i _ => deregister_targets_request a i
  | register_targets_call a i _ => register_targets_request a i
  end.

(** The ARN of a [describe_target_health] call whose answer lists the
    instance among the targets. *)
Definition reported_member (instance_id : string) (c : call) : option string :=
  match c with
  | describe_target_health_call a (Returned ids) =>
      if is_target instance_id ids then Some a else None
  | _ => None
  end.

(** The membership snapshot: the target groups the provider reported the
    instance a member of during the call, in the order they were asked. *)
Definition snapshot (instance_id : string) (tr : list call) : list string :=
  omap (reported_member instance_id) tr.

Definition registered_by (c : call) : option string :=
  match c with
  | register_targets_call a _ (Returned _) => Some a
  | _ => None
  end.

Definition deregistered_by (c : call) : option string :=
  match c with
  | deregister_targets_call a _ (Returned _) => Some a
  | _ => None
  end.

(** The failure record a raising call leaves behind; [tag] is the operation
    written for a failed [describe_target_health]. *)
Definition failure_of (tag : string) (c : call) : option failure :=
  match c with
  | describe_target_health_call a (Raised e) => Some (Failure (Some a) tag e)
  | deregister_targets_call a _ (Raised e) =>
      Some (Failure (Some a) "deregister" e)
  | register_targets_call a _ (Raised e) =>
      Some (Failure (Some a) "register" e)
  | _ => None
  end.


(** A call is genuine after [h] when its answer is the one the client gives
    after the calls [h]. *)
Definition genuine (elb : elb_client) (h : list call) (c : call) : Prop :=
  match c with
  | describe_target_health_call a r => r = describe_target_health elb h a
  | deregister_targets_call a i r => r = deregister_targets elb h a i
  | register_targets_call a i r => r = register_targets elb h a i
  end.

(** Traces in which every call is genuine. *)
Inductive trace_of (elb : elb_client) : list call → Prop :=
| trace_of_nil : trace_of elb []
| trace_of_snoc h c :
    trace_of elb h → genuine elb h c → trace_of elb (h ++ [c]).

(** The result the calls of a trace account for when the desired set is not
    empty: every bucket is what the answers of the trace put there. *)
Definition results_of_calls (instance_id : string) (tr : list call) : results :=
  Results (omap registered_by tr) (snapshot instance_id tr)
          (omap deregistered_by tr) (omap (failure_of "describe_health") tr).

(** The same when the desired set is empty: the members found go to
    ['deregistered']. *)
Definition drained_by_calls (instance_id : string) (tr : list call) : results :=
  Results [] [] (snapshot instance_id tr) (omap (failure_of "deregister") tr).

Definition is_describe (c : call) : Prop :=
  ∃ a r, c = describe_target_health_call a r.

(** The result dictionary is the one the calls made so far account for. *)
Definition explained (instance_id : string) (s : state) : Prop :=
  res s = results_of_calls instance_id (calls s).

Definition drained (instance_id : string) (s : state) : Prop :=
  res s = drained_by_calls instance_id (calls s).

(** The state after the discovery loop of lines 101-112. *)
Definition discovered (elb : elb_client) (instance_id : string) : state :=
  for_each_target_group elb (check_target_group elb instance_id)
    (State no_results []).

(** ** The properties, as the specification words them *)



(** A failed listing as specified: nothing but the one whole-operation
    record is returned. *)
Definition listing_failure_leaves_nothing (elb : elb_client)
  (instance_id : string) (target_groups : list target_group) : Prop :=
  ∀ e, target_groups ≠ [] → paginate_error elb = Some e →
       res (register_instance_to_target_groups elb instance_id target_groups)
       = Results [] [] [] [Failure None "describe_target_groups" e].

(** The provider lists its groups without error, answers every
    [describe_target_health] on them, and reports the instance in exactly
    the groups [members]. *)
Definition member_of_exactly (elb : elb_client) (instance_id : string)
  (members : list string) : Prop :=
  paginate_error elb = None ∧
  members ⊆ concat (pages elb) ∧
  ∀ h a, a ∈ concat (pages elb) →
         ∃ ids, describe_target_health elb h a = Returned ids ∧
                (instance_id ∈ ids ↔ a ∈ members).

(** [register_targets] raises for [b] and for no other group. *)
Definition register_fails_only_for (elb : elb_client) (b : string) : Prop :=
  (∀ h i, ∃ e, register_targets elb h b i = Raised e) ∧
  (∀ h a i, a ≠ b → ∃ u, register_targets elb h a i = Returned u).

(** The provider holds the groups [c] and [d]; the health query raises for
    [c] and reports the instance a member of [d]. *)
Definition unreachable_group (elb : elb_client) (instance_id c d : string)
  : Prop :=
  c ≠ d ∧ paginate_error elb = None ∧
  (∀ a, a ∈ concat (pages elb) ↔ a = c ∨ a = d) ∧
  (∀ h, ∃ e, describe_target_health elb h c = Raised e) ∧
  (∀ h, ∃ ids, describe_target_health elb h d = Returned ids ∧
               instance_id ∈ ids).

(** Isolation of the unreachable group as specified: [d] is classified by
    the desired set, and [c] shows up in [failed] only, with no call that
    changes its membership. *)
Definition isolated (elb : elb_client) (instance_id c d : string)
  (target_groups : list target_group) : Prop :=
  let s := register_instance_to_target_groups elb instance_id target_groups in
  (d ∈ arn <$> target_groups → d ∈ already_registered (res s)) ∧
  (d ∉ arn <$> target_groups →
   ∃ r, deregister_targets_call d instance_id r ∈ calls s) ∧
  (∃ e, Failure (Some c) "describe_health" e ∈ failed (res s)) ∧
  (c ∉ registered (res s)) ∧ (c ∉ deregistered (res s)) ∧
  (∀ i r, register_targets_call c i r ∉ calls s) ∧
  (∀ i r, deregister_targets_call c i r ∉ calls s).

(** *** Sample providers *)

(** A provider with the groups [groups] on one page, which reports the
    instance ["i-0a1"] a member of the groups [members], cannot be asked
    about the groups [unreachable], and refuses to register to the groups
    [refused]. *)
Definition sample_elb (groups members unreachable refused : list string)
  (listing_error : option string) : elb_client :=
  ElbClient [groups] listing_error
    (λ _ a, if bool_decide (a ∈ unreachable) then Raised "AccessDenied"
            else if bool_decide (a ∈ members) then Returned ["i-0ff"; "i-0a1"]
            else Returned ["i-0ff"])
    (λ _ _ _, Returned ())
    (λ _ a _, if bool_decide (a ∈ refused) then Raised "InvalidTarget"
              else Returned ()).

(** *** The node configuration, as the specification words it *)

(** The value of a field of an entry, when the entry is a dict that has it. *)
Definition field (key : string) (tg : json) : option json :=
  match tg with
  | JObj fields => dict_lookup key fields
  | _ => None
  end.

(** The list under [eks.targetGroups]; none when a key is missing. *)
Definition entries (data : json) : list json :=
  match field "eks" data with
  | Some eks =>
      match field "targetGroups" eks with
      | Some (JArr items) => items
      | _ => []
      end
  | None => []
  end.

(** A value that is there and holds something: not [None], not an empty
    string, list or dict. *)
Definition non_empty (v : json) : bool :=
  match v with
  | JNull => false
  | JStr s => negb (String.eqb s "")
  | JArr [] => false
  | JObj [] => false
  | _ => true
  end.

(** The field is present and its value passes [good]. *)
Definition has (good : json → bool) (key : string) (tg : json) : bool :=
  from_option good false (field key tg).

(** An entry projected to [{arn, port}]. *)
Definition binding_of (tg : json) : json :=
  JObj [("arn", default JNull (field "arn" tg));
        ("port", default JNull (field "port" tg))].

(** The entries whose [arn] and [port] both pass [good], projected, in the
    order of the response. *)
Definition bindings (good : json → bool) (data : json) : list json :=
  binding_of <$>
    filter (λ tg, has good "arn" tg && has good "port" tg) (entries data).

(** The filter as specified: both fields present and non-empty, for every
    response. *)
Definition keeps_complete_entries (data : json) : Prop :=
  get_target_groups_for_node (Returned data) =
  Returned (bindings non_empty data).

Definition is_object (v : json) : Prop := ∃ fields, v = JObj fields.

(** A response of the shape the function expects: nothing at all, or a
    dict whose ['eks'], when there, is a dict whose ['targetGroups'], when
    there, is a list of dicts. *)
Definition expected_shape (data : json) : Prop :=
  match data with
  | JObj fields =>
      match dict_lookup "eks" fields with
      | None => True
      | Some (JObj eks) =>
          match dict_lookup "targetGroups" eks with
          | None => True
          | Some (JArr items) => Forall is_object items
          | Some _ => False
          end
      | Some _ => False
      end
  | _ => truthy data = false
  end.

(** A response with a port of 0. *)
Definition zero_port_response : json :=
  JObj [("eks", JObj [("targetGroups",
     JArr [JObj [("arn", JStr "tg_arn_1"); ("port", JNum 0)];
           JObj [("arn", JStr "tg_arn_2"); ("port", JNum 443)]])])].

(** The instance a call registers or deregisters; none for a health
    query, which changes nothing. *)
Definition mutated_instance (c : call) : option string :=
  match c with
  | describe_target_health_call _ _ => None
  | deregister_targets_call _ i _ => Some i
  | register_targets_call _ i _ => Some i
  end.

(** *** A sample cycle *)

Definition managed_labels : gmap string string :=
  {[ "provisioner.cast.ai/managed-by" := "cast.ai";
     "provisioner.cast.ai/node-configuration-id" := "cfg-1" ]}.

Definition ready_node : node :=
  Node "n-1" "i-0a1" "worker-1" "ready" managed_labels.
Definition draining_node : node :=
  Node "n-2" "i-0b2" "worker-2" "draining" managed_labels.
Definition foreign_node : node :=
  Node "n-3" "i-0c3" "worker-3" "ready" ∅.

Definition sample_environ : environ :=
  Environ (Some "key") (Some "cluster") (Some "eu-west-1").

Definition sample_services : services :=
  Services
    (λ _ _, Returned (well_formed <$>
                        [draining_node; ready_node; foreign_node]))
    (λ _ _ _, Returned [TargetGroup "B" 80])
    (λ _ _, Returned (sample_elb ["A"; "B"] ["A"] [] [] None)).

(** Closed decidable facts are settled by evaluation. *)
Ltac by_evaluation := apply (bool_decide_unpack _); vm_compute; exact I.

(** The listed groups, one at a time. *)
Ltac each_group H :=
  simpl in H;
  repeat (apply elem_of_cons in H as [->|H]);
  [..|by apply elem_of_nil in H].

(** ** The control-plane requests *)

Module Api.

(** What [requests.get] hands back, as far as [fetch_data] uses it: the
    outcome of [response.raise_for_status()] and of [response.json()]. *)
Record response : Type := Response {
  raise_for_status : outcome unit;
  response_json : outcome json }.

(** [fetch_data(url, headers, params, logger)], as a function of what
    [requests.get] did: a [RequestException] is logged and raised again,
    any other exception leaves the function as it is. *)
Definition fetch_data (got : outcome response) : outcome json :=
  response ← got;
  _ ← raise_for_status response;
  response_json response.

(** ['items' in data]: a key of a dict, an element of a list, a part of a
    string; the other values cannot be searched. *)
Definition contains (data : json) (key : string) : outcome bool :=
  match data with
  | JObj fields => Returned (bool_decide (is_Some (dict_lookup key fields)))
  | JArr items =>
      Returned (existsb (λ v, match v with
                              | JStr s => String.eqb s key
                              | _ => false
                              end) items)
  | JStr s => Returned (bool_decide (is_Some (String.index 0 key s)))
  | _ => Raised "TypeError"
  end.

(** [get_cluster_nodes(api_key, cluster_id, logger)], as a function of
    what [fetch_data] gave: [data['items']] when [data and 'items' in data],
    after [len(data['items'])] was taken for the log line of line 43; the
    empty list otherwise. *)
Definition get_cluster_nodes (fetched : outcome json) : outcome json :=
  data ← fetched;
  found ← (if truthy data then contains data "items" else mret false);
  if found : bool then
    items ← subscript data "items";
    _ ← len items;
    subscript data "items"
  else mret (JArr []).

End Api.

(** ** More readings of a trace *)

(** The group a request asks the health of, deregisters from, registers
    to. *)
Definition described (q : request) : option string :=
  match q with
  | describe_target_health_request a => Some a
  | _ => None
  end.

Definition deregistration (q : request) : option string :=
  match q with
  | deregister_targets_request a _ => Some a
  | _ => None
  end.

Definition registration (q : request) : option string :=
  match q with
  | register_targets_request a _ => Some a
  | _ => None
  end.

Definition is_deregister (c : call) : Prop :=
  ∃ a i r, c = deregister_targets_call a i r.

Definition is_register (c : call) : Prop :=
  ∃ a i r, c = register_targets_call a i r.

(** The group and the error text of a call that raised. *)
Definition raised (c : call) : option (option string * string) :=
  match c with
  | describe_target_health_call a (Raised e) => Some (Some a, e)
  | deregister_targets_call a _ (Raised e) => Some (Some a, e)
  | register_targets_call a _ (Raised e) => Some (Some a, e)
  | _ => None
  end.

(** The record left by a listing that raised. *)
Definition listing_raised (elb : elb_client) : list (option string * string) :=
  match paginate_error elb with
  | Some e => [(None, e)]
  | None => []
  end.

(** A binding as [get_target_groups_for_node] builds it: the two keys, each
    with a true value. *)
Definition binding (v : json) : Prop :=
  ∃ a p, v = JObj [("arn", a); ("port", p)] ∧
         truthy a = true ∧ truthy p = true.

(** A variable that is not set, or set to the empty string. *)
Definition unset (v : option string) : Prop := v = None ∨ v = Some "".

(** *** More samples *)

(** A response with an entry that is not a dict. *)
Definition malformed_response : list (string * json) :=
  [("eks", JObj [("targetGroups",
      JArr [JObj [("arn", JStr "tg_arn_1"); ("port", JNum 80)];
            JStr "tg_arn_2"])])].

(** Services whose node-configuration request fails. *)
Definition unfetched_services : services :=
  Services
    (λ _ _, Returned (well_formed <$> [ready_node; foreign_node]))
    (λ _ _ _, Raised "503 Server Error")
    (λ _ _, Returned (sample_elb ["A"; "B"] ["A"] [] [] None)).

(** The values [len] is defined on: lists, dicts and strings. *)
Definition sized (v : json) : bool :=
  match v with
  | JArr _ | JObj _ | JStr _ => true
  | _ => false
  end.


(** The inventory of the repository's test [test_get_cluster_nodes],
    [[{'id': 'node1'}, {'id': 'node2'}]], after a node that can be read:
    the two items have no ['state']. *)
Definition broken_services : services :=
  Services
    (λ _ _, Returned [well_formed draining_node;
                      malformed "KeyError";
                      malformed "KeyError";
                      well_formed ready_node])
    (λ _ _ _, Returned [TargetGroup "B" 80])
    (λ _ _, Returned (sample_elb ["A"; "B"] ["A"] [] [] None)).

(** ** Loops *)

Lemma for_each_nil {A} (body : A → state → state) s :
  for_each body [] s = s.
Proof. reflexivity. Qed.

Lemma for_each_cons {A} (body : A → state → state) x l s :
  for_each body (x :: l) s = for_each body l (body x s).
Proof. reflexivity. Qed.

Lemma for_each_app {A} (body : A → state → state) l1 l2 s :
  for_each body (l1 ++ l2) s = for_each body l2 (for_each body l1 s).
Proof. unfold for_each. apply foldl_app. Qed.

Lemma for_each_concat {A} (body : A → state → state) ls s :
  for_each (for_each body) ls s = for_each body (concat ls) s.
Proof.
  revert s. induction ls as [|l ls IH]; intros s; [done|].
  rewrite for_each_cons. simpl. rewrite for_each_app. apply IH.
Qed.

(** A property kept by every round is kept by the loop. *)
Lemma for_each_invariant {A} (P : state → Prop) (body : A → state → state)
  l s :
  (∀ x s, x ∈ l → P s → P (body x s)) → P s → P (for_each body l s).
Proof.
  revert s. induction l as [|x l IH]; intros s Hbody Hs; [done|].
  rewrite for_each_cons. apply IH.
  - intros y s' Hy. apply Hbody. by right.
  - apply Hbody; [by left|done].
Qed.

(** ** One round of each loop *)

Lemma trace_of_inv elb tr c :
  c ∈ tr → trace_of elb tr → ∃ h, genuine elb h c.
Proof.
  intros Hc Htr.
  induction Htr as [|h c' Hh IH Hc']; [by apply elem_of_nil in Hc|].
  apply elem_of_app in Hc as [Hc|Hc]; [by apply IH|].
  apply list_elem_of_singleton in Hc as ->. by exists h.
Qed.

Section rounds.
Variable elb : elb_client.
Variable instance_id : string.


Lemma check_target_group_calls a s :
  calls (check_target_group elb instance_id a s) =
  calls s ++ [describe_target_health_call a
                (describe_target_health elb (calls s) a)].
Proof.
  unfold check_target_group.
  destruct (describe_target_health elb (calls s) a) as [ids|e]; simpl;
    [destruct (is_target instance_id ids)|]; reflexivity.
Qed.

Lemma drain_target_group_calls a s :
  calls (drain_target_group elb instance_id a s) =
  calls s ++ [describe_target_health_call a
                (describe_target_health elb (calls s) a)].
Proof.
  unfold drain_target_group.
  destruct (describe_target_health elb (calls s) a) as [ids|e]; simpl;
    [destruct (is_target instance_id ids)|]; reflexivity.
Qed.

Lemma check_target_group_explained a s :
  explained instance_id s →
  explained instance_id (check_target_group elb instance_id a s).
Proof.
  unfold explained. intros Hs.
  unfold check_target_group, results_of_calls, snapshot.
  destruct (describe_target_health elb (calls s) a) as [ids|e] eqn:Hd; simpl.
  - destruct (is_target instance_id ids) eqn:Ht; simpl;
      rewrite !omap_app; simpl; rewrite ?Ht, Hs; simpl;
      by rewrite ?app_nil_r.
  - rewrite !omap_app; simpl. rewrite Hs; simpl. by rewrite ?app_nil_r.
Qed.

Lemma drain_target_group_drained a s :
  drained instance_id s →
  drained instance_id (drain_target_group elb instance_id a s).
Proof.
  unfold drained. intros Hs.
  unfold drain_target_group, drained_by_calls, snapshot.
  destruct (describe_target_health elb (calls s) a) as [ids|e] eqn:Hd; simpl.
  - destruct (is_target instance_id ids) eqn:Ht; simpl;
      rewrite !omap_app; simpl; rewrite ?Ht, Hs; simpl;
      by rewrite ?app_nil_r.
  - rewrite !omap_app; simpl. rewrite Hs; simpl. by rewrite ?app_nil_r.
Qed.

Lemma deregister_unwanted_explained tgs a s :
  explained instance_id s →
  explained instance_id (deregister_unwanted elb instance_id tgs a s).
Proof.
  unfold explained. intros Hs. unfold deregister_unwanted.
  case_bool_decide; [|done].
  unfold results_of_calls, snapshot.
  destruct (deregister_targets elb (calls s) a instance_id) as [u|e]; simpl;
    rewrite !omap_app; simpl; rewrite Hs; simpl; by rewrite ?app_nil_r.
Qed.

Lemma register_new_explained tg s :
  explained instance_id s →
  explained instance_id (register_new elb instance_id tg s).
Proof.
  unfold explained. intros Hs. unfold register_new.
  case_bool_decide; [|done].
  unfold results_of_calls, snapshot.
  destruct (register_targets elb (calls s) (arn tg) instance_id) as [u|e];
    simpl; rewrite !omap_app; simpl; rewrite Hs; simpl;
    by rewrite ?app_nil_r.
Qed.

Lemma check_target_group_trace a s :
  trace_of elb (calls s) →
  trace_of elb (calls (check_target_group elb instance_id a s)).
Proof. intros Hs. rewrite check_target_group_calls. by constructor. Qed.

Lemma drain_target_group_trace a s :
  trace_of elb (calls s) →
  trace_of elb (calls (drain_target_group elb instance_id a s)).
Proof. intros Hs. rewrite drain_target_group_calls. by constructor. Qed.

Lemma deregister_unwanted_trace tgs a s :
  trace_of elb (calls s) →
  trace_of elb (calls (deregister_unwanted elb instance_id tgs a s)).
Proof.
  intros Hs. unfold deregister_unwanted. case_bool_decide; [|done].
  destruct (deregister_targets elb (calls s) a instance_id) as [u|e] eqn:Hd;
    simpl; constructor; simpl; done.
Qed.

Lemma register_new_trace tg s :
  trace_of elb (calls s) →
  trace_of elb (calls (register_new elb instance_id tg s)).
Proof.
  intros Hs. unfold register_new. case_bool_decide; [|done].
  destruct (register_targets elb (calls s) (arn tg) instance_id) as [u|e] eqn:Hd;
    simpl; constructor; simpl; done.
Qed.
End rounds.

(** ** The calls of each loop *)

Section loops.
Variable elb : elb_client.
Variable instance_id : string.

Lemma discovery_requests (body : string → state → state) l s :
  (∀ a s, calls (body a s) =
          calls s ++ [describe_target_health_call a
                        (describe_target_health elb (calls s) a)]) →
  request_of <$> calls (for_each body l s) =
  (request_of <$> calls s) ++ (describe_target_health_request <$> l).
Proof.
  intros Hbody. revert s. induction l as [|a l IH]; intros s.
  - by rewrite for_each_nil, app_nil_r.
  - rewrite for_each_cons, IH, Hbody, fmap_app, <- app_assoc. done.
Qed.

Lemma deregister_unwanted_already tgs a s :
  already_registered (res (deregister_unwanted elb instance_id tgs a s)) =
  already_registered (res s).
Proof.
  unfold deregister_unwanted. case_bool_decide; [|done].
  by destruct (deregister_targets elb (calls s) a instance_id).
Qed.

Lemma register_new_already tg s :
  already_registered (res (register_new elb instance_id tg s)) =
  already_registered (res s).
Proof.
  unfold register_new. case_bool_decide; [|done].
  by destruct (register_targets elb (calls s) (arn tg) instance_id).
Qed.

Lemma deregistration_requests tgs l s :
  request_of <$> calls (for_each (deregister_unwanted elb instance_id tgs) l s) =
  (request_of <$> calls s) ++
  ((λ a, deregister_targets_request a instance_id) <$>
     filter (λ a, a ∉ arn <$> tgs) l).
Proof.
  revert s. induction l as [|a l IH]; intros s.
  - by rewrite for_each_nil, app_nil_r.
  - rewrite for_each_cons, IH, filter_cons. unfold deregister_unwanted.
    case_bool_decide as Ha.
    + case_decide; [|done].
      destruct (deregister_targets elb (calls s) a instance_id); simpl;
        by rewrite fmap_app, <- app_assoc.
    + by case_decide.
Qed.

Lemma registration_requests tgs s :
  request_of <$> calls (for_each (register_new elb instance_id) tgs s) =
  (request_of <$> calls s) ++
  ((λ a, register_targets_request a instance_id) <$>
     filter (λ a, a ∉ already_registered (res s)) (arn <$> tgs)).
Proof.
  revert s. induction tgs as [|tg tgs IH]; intros s.
  - by rewrite for_each_nil, app_nil_r.
  - rewrite for_each_cons, IH, register_new_already, fmap_cons, filter_cons.
    unfold register_new. case_bool_decide as Ha.
    + case_decide; [|done].
      destruct (register_targets elb (calls s) (arn tg) instance_id); simpl;
        by rewrite fmap_app, <- app_assoc.
    + by case_decide.
Qed.

Lemma deregistration_already tgs l s :
  already_registered
    (res (for_each (deregister_unwanted elb instance_id tgs) l s)) =
  already_registered (res s).
Proof.
  apply (for_each_invariant
           (λ s', already_registered (res s') = already_registered (res s)));
    [|done].
  intros a s' _ <-. apply deregister_unwanted_already.
Qed.

Lemma registration_already tgs s :
  already_registered (res (for_each (register_new elb instance_id) tgs s)) =
  already_registered (res s).
Proof.
  apply (for_each_invariant
           (λ s', already_registered (res s') = already_registered (res s)));
    [|done].
  intros a s' _ <-. apply register_new_already.
Qed.

(** A trace of [describe_target_health] calls registers and deregisters
    nothing. *)
Lemma describes_only tr l :
  request_of <$> tr = describe_target_health_request <$> l →
  omap registered_by tr = [] ∧ omap deregistered_by tr = [].
Proof.
  revert l. induction tr as [|c tr IH]; intros l H; [done|].
  destruct l as [|a l]; [done|]. simpl in H.
  injection H as Hc Htr. destruct (IH _ Htr) as [H1 H2].
  destruct c; [|done..]. exact (conj H1 H2).
Qed.

(** *** The three ways a call ends *)

Lemma discovered_spec :
  explained instance_id (discovered elb instance_id) ∧
  trace_of elb (calls (discovered elb instance_id)) ∧
  request_of <$> calls (discovered elb instance_id) =
  describe_target_health_request <$> concat (pages elb).
Proof.
  unfold discovered, for_each_target_group. rewrite for_each_concat.
  split_and!.
  - apply for_each_invariant; [|done].
    intros a s _. apply check_target_group_explained.
  - apply (for_each_invariant (λ s, trace_of elb (calls s))); [|constructor].
    intros a s _. apply check_target_group_trace.
  - rewrite (discovery_requests (check_target_group elb instance_id)); [done|].
    apply check_target_group_calls.
Qed.

Lemma reconciled_unfold tgs :
  tgs ≠ [] → paginate_error elb = None →
  register_instance_to_target_groups elb instance_id tgs =
  for_each (register_new elb instance_id) tgs
    (for_each (deregister_unwanted elb instance_id tgs)
       (already_registered (res (discovered elb instance_id)))
       (discovered elb instance_id)).
Proof.
  intros Htgs Hok. unfold register_instance_to_target_groups.
  destruct tgs as [|tg tgs]; [done|]. by rewrite Hok.
Qed.

Lemma reconciled_spec tgs :
  tgs ≠ [] → paginate_error elb = None →
  let s := register_instance_to_target_groups elb instance_id tgs in
  explained instance_id s ∧ trace_of elb (calls s) ∧
  request_of <$> calls s =
  (describe_target_health_request <$> concat (pages elb)) ++
  ((λ a, deregister_targets_request a instance_id) <$>
     filter (λ a, a ∉ arn <$> tgs) (snapshot instance_id (calls s))) ++
  ((λ a, register_targets_request a instance_id) <$>
     filter (λ a, a ∉ snapshot instance_id (calls s)) (arn <$> tgs)).
Proof.
  intros Htgs Hok. rewrite reconciled_unfold by done. cbv zeta.
  destruct discovered_spec as (He & Ht & Hq).
  set (s1 := (discovered elb instance_id)) in *.
  set (s2 := for_each (deregister_unwanted elb instance_id tgs)
               (already_registered (res s1)) s1).
  assert (explained instance_id s2) as He2.
  { apply for_each_invariant; [|done].
    intros a s _. apply deregister_unwanted_explained. }
  assert (explained instance_id
            (for_each (register_new elb instance_id) tgs s2)) as He3.
  { apply for_each_invariant; [|done].
    intros a s _. apply register_new_explained. }
  split_and!; [done| |].
  - apply (for_each_invariant (λ s, trace_of elb (calls s))).
    { intros a s _. apply register_new_trace. }
    apply (for_each_invariant (λ s, trace_of elb (calls s))); [|done].
    intros a s _. apply deregister_unwanted_trace.
  - assert (already_registered (res s1) =
            snapshot instance_id
              (calls (for_each (register_new elb instance_id) tgs s2))) as Hs.
    { rewrite <- (deregistration_already tgs (already_registered (res s1)) s1).
      fold s2. rewrite <- (registration_already tgs s2). by rewrite He3. }
    rewrite <- Hs, registration_requests. unfold s2.
    rewrite deregistration_requests, deregistration_already, Hq.
    by rewrite <- app_assoc.
Qed.

Lemma listing_failed_spec tgs e :
  tgs ≠ [] → paginate_error elb = Some e →
  let s := register_instance_to_target_groups elb instance_id tgs in
  registered (res s) = [] ∧ deregistered (res s) = [] ∧
  already_registered (res s) = snapshot instance_id (calls s) ∧
  failed (res s) =
    omap (failure_of "describe_health") (calls s) ++
    [Failure None "describe_target_groups" e] ∧
  trace_of elb (calls s) ∧
  request_of <$> calls s =
  describe_target_health_request <$> concat (pages elb).
Proof.
  intros Htgs Herr. unfold register_instance_to_target_groups.
  destruct tgs as [|tg tgs]; [done|]. rewrite Herr.
  fold (discovered elb instance_id). destruct discovered_spec as (He & Ht & Hq).
  destruct (describes_only _ _ Hq) as [Hr Hd].
  simpl. rewrite He. simpl. by rewrite Hr, Hd.
Qed.

Lemma drained_spec :
  let s := register_instance_to_target_groups elb instance_id [] in
  registered (res s) = [] ∧ already_registered (res s) = [] ∧
  deregistered (res s) = snapshot instance_id (calls s) ∧
  failed (res s) =
    omap (failure_of "deregister") (calls s) ++
    from_option (λ e, [Failure None "deregister" e]) [] (paginate_error elb) ∧
  trace_of elb (calls s) ∧
  request_of <$> calls s =
  describe_target_health_request <$> concat (pages elb).
Proof.
  unfold register_instance_to_target_groups, for_each_target_group.
  rewrite for_each_concat.
  set (s1 := for_each (drain_target_group elb instance_id)
               (concat (pages elb)) (State no_results [])).
  assert (drained instance_id s1) as Hd.
  { apply for_each_invariant; [|done].
    intros a s _. apply drain_target_group_drained. }
  assert (trace_of elb (calls s1)) as Ht.
  { apply (for_each_invariant (λ s, trace_of elb (calls s))); [|constructor].
    intros a s _. apply drain_target_group_trace. }
  assert (request_of <$> calls s1 =
          describe_target_health_request <$> concat (pages elb)) as Hq.
  { unfold s1.
    rewrite (discovery_requests (drain_target_group elb instance_id)); [done|].
    apply drain_target_group_calls. }
  destruct (paginate_error elb) as [e|]; simpl; rewrite Hd; simpl;
    rewrite ?app_nil_r; done.
Qed.
End loops.

(** ** Reading results off the trace *)

Section members.
Variable instance_id : string.

Lemma elem_of_snapshot (tr : list call) a :
  a ∈ snapshot instance_id tr ↔
  ∃ ids, describe_target_health_call a (Returned ids) ∈ tr ∧ instance_id ∈ ids.
Proof.
  unfold snapshot. rewrite list_elem_of_omap. split.
  - intros (c & Hc & Hm). destruct c as [a' [ids|e]| |]; try done.
    simpl in Hm. unfold is_target in Hm. case_bool_decide; [|done].
    injection Hm as ->. eauto.
  - intros (ids & Hc & Hi). eexists; split; [done|]. simpl.
    unfold is_target. by rewrite bool_decide_eq_true_2.
Qed.

Lemma elem_of_registered_by (tr : list call) a :
  a ∈ omap registered_by tr ↔
  ∃ i u, register_targets_call a i (Returned u) ∈ tr.
Proof.
  rewrite list_elem_of_omap. split.
  - intros (c & Hc & Hm). destruct c as [| |a' i [u|e]]; try done.
    injection Hm as ->. eauto.
  - intros (i & u & Hc). eexists; split; done.
Qed.

Lemma elem_of_deregistered_by (tr : list call) a :
  a ∈ omap deregistered_by tr ↔
  ∃ i u, deregister_targets_call a i (Returned u) ∈ tr.
Proof.
  rewrite list_elem_of_omap. split.
  - intros (c & Hc & Hm). destruct c as [|a' i [u|e]|]; try done.
    injection Hm as ->. eauto.
  - intros (i & u & Hc). eexists; split; done.
Qed.

(** A call of the trace is one of the requests made. *)
Lemma call_requested (tr : list call) c :
  c ∈ tr → request_of c ∈ request_of <$> tr.
Proof. apply list_elem_of_fmap_2. Qed.

Lemma requested_call (tr : list call) q :
  q ∈ request_of <$> tr → ∃ c, c ∈ tr ∧ request_of c = q.
Proof. intros (c & -> & Hc)%list_elem_of_fmap. eauto. Qed.

Section classification.
Variable elb : elb_client.
Variable tgs : list target_group.
Hypothesis Htgs : tgs ≠ [].
Hypothesis Hok : paginate_error elb = None.

Let s := register_instance_to_target_groups elb instance_id tgs.

(** Which calls a reconcile call with a listing makes. *)
Lemma reconciled_call c :
  c ∈ calls s →
  match c with
  | describe_target_health_call a _ => a ∈ concat (pages elb)
  | deregister_targets_call a i _ =>
      i = instance_id ∧ a ∈ snapshot instance_id (calls s) ∧ a ∉ arn <$> tgs
  | register_targets_call a i _ =>
      i = instance_id ∧ a ∈ arn <$> tgs ∧ a ∉ snapshot instance_id (calls s)
  end.
Proof.
  intros Hc%call_requested.
  destruct (reconciled_spec elb instance_id tgs Htgs Hok) as (_ & _ & Hq).
  fold s in Hq. rewrite Hq in Hc.
  rewrite !elem_of_app, !list_elem_of_fmap in Hc.
  destruct Hc as [(a & Ha & Hin)|[(a & Ha & Hin)|(a & Ha & Hin)]];
    try apply list_elem_of_filter in Hin as [? ?];
    destruct c; simplify_eq/=; done.
Qed.

Lemma deregistration_issued a :
  a ∈ snapshot instance_id (calls s) → a ∉ arn <$> tgs →
  ∃ r, deregister_targets_call a instance_id r ∈ calls s.
Proof.
  intros Ha Hna.
  destruct (reconciled_spec elb instance_id tgs Htgs Hok) as (_ & _ & Hq).
  fold s in Hq.
  destruct (requested_call (calls s) (deregister_targets_request a instance_id))
    as (c & Hc & Hr).
  { rewrite Hq, !elem_of_app. right; left.
    apply list_elem_of_fmap. exists a. split; [done|].
    by apply list_elem_of_filter. }
  destruct c; simplify_eq/=. eauto.
Qed.

Lemma registration_issued a :
  a ∈ arn <$> tgs → a ∉ snapshot instance_id (calls s) →
  ∃ r, register_targets_call a instance_id r ∈ calls s.
Proof.
  intros Ha Hna.
  destruct (reconciled_spec elb instance_id tgs Htgs Hok) as (_ & _ & Hq).
  fold s in Hq.
  destruct (requested_call (calls s) (register_targets_request a instance_id))
    as (c & Hc & Hr).
  { rewrite Hq, !elem_of_app. right; right.
    apply list_elem_of_fmap. exists a. split; [done|].
    by apply list_elem_of_filter. }
  destruct c; simplify_eq/=. eauto.
Qed.
End classification.
End members.


Lemma deregistered_subseteq elb instance_id tgs :
  tgs ≠ [] →
  let r := res (register_instance_to_target_groups elb instance_id tgs) in
  deregistered r ⊆ already_registered r.
Proof.
  intros Htgs r. destruct (paginate_error elb) as [e|] eqn:Hp.
  - destruct (listing_failed_spec elb instance_id tgs e Htgs Hp)
      as (_ & Hd & _).
    unfold r. rewrite Hd. apply list_subseteq_nil.
  - destruct (reconciled_spec elb instance_id tgs Htgs Hp) as (He & _ & _).
    intros a Ha. unfold r in *. rewrite He in Ha |- *. simpl in *.
    apply elem_of_deregistered_by in Ha as (i & u & Hc).
    by apply (reconciled_call instance_id elb tgs Htgs Hp) in Hc as (_ & ? & _).
Qed.

(** Every call of a trace of [describe_target_health] requests is one. *)
Lemma describes_are_describes (tr : list call) l c :
  request_of <$> tr = describe_target_health_request <$> l →
  c ∈ tr → is_describe c.
Proof.
  intros Hq Hc%call_requested. rewrite Hq in Hc.
  apply list_elem_of_fmap in Hc as (a & Ha & _).
  destruct c; simplify_eq/=. by eexists _, _.
Qed.


(** What a genuine trace says about the health queries of a provider. *)
Lemma described_genuinely elb (tr : list call) a r :
  trace_of elb tr → describe_target_health_call a r ∈ tr →
  ∃ h, r = describe_target_health elb h a.
Proof.
  intros Htr Hc. destruct (trace_of_inv elb tr _ Hc Htr) as [h Hg].
  by exists h.
Qed.

Lemma registered_genuinely elb (tr : list call) a i r :
  trace_of elb tr → register_targets_call a i r ∈ tr →
  ∃ h, r = register_targets elb h a i.
Proof.
  intros Htr Hc. destruct (trace_of_inv elb tr _ Hc Htr) as [h Hg].
  by exists h.
Qed.

Lemma description_issued (tr : list call) l k a :
  request_of <$> tr = (describe_target_health_request <$> l) ++ k →
  a ∈ l → ∃ r, describe_target_health_call a r ∈ tr.
Proof.
  intros Hq Ha.
  destruct (requested_call tr (describe_target_health_request a))
    as (c & Hc & Hr).
  { rewrite Hq, elem_of_app. left. by apply list_elem_of_fmap_2. }
  destruct c; simplify_eq/=. eauto.
Qed.

Lemma omap_none {A B} (f : A → option B) (l : list A) :
  (∀ x, x ∈ l → f x = None) → omap f l = [].
Proof.
  induction l as [|x l IH]; intros H; [done|].
  simpl. rewrite (H x) by left. apply IH. intros y Hy. apply H. by right.
Qed.

Lemma filter_all {A} (P : A → Prop) `{!∀ x, Decision (P x)} (l : list A) :
  (∀ x, x ∈ l → P x) → filter P l = l.
Proof.
  induction l as [|x l IH]; intros Hall; [done|].
  rewrite filter_cons. destruct (decide (P x)) as [|Hn].
  - f_equal. apply IH. intros y Hy. apply Hall. by right.
  - destruct Hn. apply Hall. by left.
Qed.

(** ** The reconcile call *)

(** C10. With a non-empty desired set, whatever is in [deregistered] is in
    [already_registered] as well: an ARN is deregistered only after it was
    recorded there and the record stays, so the two buckets share an ARN as
    soon as one deregistration went through. *)
Theorem deregistered_already_registered elb instance_id tgs :
  tgs ≠ [] →
  let r := res (register_instance_to_target_groups elb instance_id tgs) in
  deregistered r ⊆ already_registered r ∧
  (deregistered r ≠ [] →
   ∃ a, a ∈ deregistered r ∧ a ∈ already_registered r).
Proof.
  intros Htgs r.
  pose proof (deregistered_subseteq elb instance_id tgs Htgs) as Hsub.
  cbv zeta in Hsub. fold r in Hsub. split; [done|].
  intros Hne. destruct (deregistered r) as [|a l] eqn:Hd; [done|].
  exists a. split; [by left|]. apply Hsub. by left.
Qed.

(** C3. With a non-empty desired set and a listing that went through, a
    group of the snapshot is asked to be deregistered when it is not
    desired, is in [already_registered] when it is, and is never passed to
    [register_targets]. *)
Theorem snapshot_classified elb instance_id tgs a :
  tgs ≠ [] → paginate_error elb = None →
  let s := register_instance_to_target_groups elb instance_id tgs in
  a ∈ snapshot instance_id (calls s) →
  (a ∉ arn <$> tgs → ∃ r, deregister_targets_call a instance_id r ∈ calls s) ∧
  (a ∈ arn <$> tgs → a ∈ already_registered (res s)) ∧
  (∀ i r, register_targets_call a i r ∉ calls s).
Proof.
  intros Htgs Hok s Ha. split_and!.
  - intros Hna. by apply deregistration_issued.
  - intros _. destruct (reconciled_spec elb instance_id tgs Htgs Hok)
      as (He & _ & _).
    fold s in He. by rewrite He.
  - intros i r Hc.
    by apply (reconciled_call instance_id elb tgs Htgs Hok) in Hc as (_ & _ & ?).
Qed.

(** C2, where the code departs from the specification. With an empty
    desired set the call only asks for the health of the groups: every group
    of the snapshot is written to [deregistered] while no
    [deregister_targets] call, nor any other call that changes a membership,
    is issued. *)
Theorem empty_desired_sends_nothing elb instance_id :
  let s := register_instance_to_target_groups elb instance_id [] in
  deregistered (res s) = snapshot instance_id (calls s) ∧
  ∀ c, c ∈ calls s → is_describe c.
Proof.
  intros s. destruct (drained_spec elb instance_id) as (_ & _ & Hd & _ & _ & Hq).
  fold s in Hd, Hq. split; [done|].
  intros c. by apply describes_are_describes with (l := concat (pages elb)).
Qed.


(** C4, as amended. When the listing fails, the calls issued are the
    health queries of the groups of the pages consumed, in order, each with
    the answer of the provider, and no call registers or deregisters;
    [registered] and [deregistered] are empty; [failed] holds exactly one
    [describe_health] record, with its ARN and error, for each of these
    queries that raised, in the order of the queries, and then the record of
    the listing, the only one without an ARN; [already_registered] holds
    the groups these queries found the instance in. *)
Theorem listing_failure_aborts elb instance_id tgs e :
  tgs ≠ [] → paginate_error elb = Some e →
  let s := register_instance_to_target_groups elb instance_id tgs in
  registered (res s) = [] ∧ deregistered (res s) = [] ∧
  already_registered (res s) = snapshot instance_id (calls s) ∧
  failed (res s) =
    omap (failure_of "describe_health") (calls s) ++
    [Failure None "describe_target_groups" e] ∧
  trace_of elb (calls s) ∧
  request_of <$> calls s =
    describe_target_health_request <$> concat (pages elb) ∧
  ∀ c, c ∈ calls s → is_describe c.
Proof.
  intros Htgs Herr s.
  destruct (listing_failed_spec elb instance_id tgs e Htgs Herr)
    as (Hr & Hd & Ha & Hf & Ht & Hq).
  fold s in Hr, Hd, Ha, Hf, Ht, Hq.
  split_and!; [done..|].
  intros c. by apply describes_are_describes with (l := concat (pages elb)).
Qed.

(** C6. With an empty desired set and a provider that reports the instance
    a member of exactly the groups [A] and [B], the result has these two
    groups, and no other, in [deregistered], and nothing in [registered] and
    [already_registered]. *)
Theorem empty_desired_deregisters_members elb instance_id A B :
  member_of_exactly elb instance_id [A; B] →
  let r := res (register_instance_to_target_groups elb instance_id []) in
  (∀ a, a ∈ deregistered r ↔ a = A ∨ a = B) ∧
  registered r = [] ∧ already_registered r = [].
Proof.
  intros (Hok & Hin & Hrep) r.
  destruct (drained_spec elb instance_id) as (Hr & Ha & Hd & _ & Ht & Hq).
  fold r in Hr, Ha, Hd. split_and!; [|done..].
  intros a. rewrite Hd, elem_of_snapshot. split.
  - intros (ids & Hc & Hi).
    destruct (described_genuinely elb _ _ _ Ht Hc) as [h Hh].
    assert (a ∈ concat (pages elb)) as Hp.
    { apply call_requested in Hc. rewrite Hq in Hc.
      apply list_elem_of_fmap in Hc as (a' & Ha' & Hp). by simplify_eq/=. }
    destruct (Hrep h a Hp) as (ids' & Hids & Hm). rewrite Hids in Hh.
    injection Hh as ->. apply Hm in Hi.
    apply elem_of_cons in Hi as [->|Hi]; [by left|].
    apply list_elem_of_singleton in Hi as ->. by right.
  - intros Hab. assert (a ∈ [A; B]) as Hm.
    { destruct Hab as [->| ->]; [by left|by right; left]. }
    destruct (description_issued
                (calls (register_instance_to_target_groups elb instance_id []))
                (concat (pages elb)) [] a) as [resp Hc].
    { by rewrite app_nil_r. }
    { by apply Hin. }
    destruct (described_genuinely elb _ _ _ Ht Hc) as [h Hh].
    destruct (Hrep h a (Hin a Hm)) as (ids & Hids & Hi).
    rewrite Hids in Hh. subst resp. exists ids. split; [done|]. by apply Hi.
Qed.

(** The snapshot of a call made to a provider that reports no membership is
    empty, and no health query raised. *)
Lemma no_membership elb instance_id tgs :
  tgs ≠ [] → member_of_exactly elb instance_id [] →
  let s := register_instance_to_target_groups elb instance_id tgs in
  snapshot instance_id (calls s) = [] ∧
  ∀ a r, describe_target_health_call a r ∈ calls s → ∃ ids, r = Returned ids.
Proof.
  intros Htgs (Hok & _ & Hrep) s.
  destruct (reconciled_spec elb instance_id tgs Htgs Hok) as (He & Ht & Hq).
  fold s in He, Ht, Hq.
  assert (∀ a r, describe_target_health_call a r ∈ calls s →
                 ∃ ids, r = Returned ids ∧ instance_id ∉ ids) as Hnone.
  { intros a r Hc.
    pose proof (reconciled_call instance_id elb tgs Htgs Hok _ Hc) as Hp.
    destruct (described_genuinely elb _ _ _ Ht Hc) as [h ->].
    destruct (Hrep h a Hp) as (ids & -> & Hi). exists ids. split; [done|].
    intros Hin%Hi. by apply elem_of_nil in Hin. }
  split.
  - apply elem_of_nil_inv. intros a (ids & Hc & Hi)%elem_of_snapshot.
    destruct (Hnone _ _ Hc) as (ids' & [= <-] & Hn). done.
  - intros a r Hc. destruct (Hnone _ _ Hc) as (ids & -> & _). eauto.
Qed.

(** C7. With the desired groups [A] and [B], a provider that reports no
    membership and whose [register_targets] raises for [B] only, the result
    has [A] alone in [registered] and one failure record, for [B] and the
    operation [register]: the failure for [B] does not keep [A] from being
    registered, whichever comes first. *)
Theorem registration_failure_isolated elb instance_id tgs A B :
  A ≠ B →
  arn <$> tgs = [A; B] ∨ arn <$> tgs = [B; A] →
  member_of_exactly elb instance_id [] →
  register_fails_only_for elb B →
  let r := res (register_instance_to_target_groups elb instance_id tgs) in
  registered r = [A] ∧
  (∃ e, failed r = [Failure (Some B) "register" e]) ∧
  already_registered r = [] ∧ deregistered r = [].
Proof.
  intros HAB Harn Hmem (HB & Hothers) r.
  assert (tgs ≠ []) as Htgs by (intros ->; by destruct Harn).
  destruct (no_membership elb instance_id tgs Htgs Hmem) as (Hsnap & Hdesc).
  destruct Hmem as (Hok & _).
  destruct (reconciled_spec elb instance_id tgs Htgs Hok) as (He & Ht & Hq).
  set (s := register_instance_to_target_groups elb instance_id tgs) in *.
  rewrite Hsnap in Hq. rewrite filter_nil in Hq. simpl in Hq.
  rewrite (filter_all (λ a, a ∉ [])) in Hq
    by (intros a _ Ha; by apply elem_of_nil in Ha).
  apply fmap_app_inv in Hq as (tr1 & tr2 & Hq1 & Hq2 & Htr).
  symmetry in Hq1.
  destruct (describes_only _ _ Hq1) as (Hr1 & Hd1).
  assert (omap (failure_of "describe_health") tr1 = []) as Hf1.
  { apply omap_none. intros c Hc.
    destruct (describes_are_describes _ _ c Hq1 Hc) as (a & resp & ->).
    destruct (Hdesc a resp) as [ids ->]; [|done].
    rewrite Htr. apply elem_of_app. by left. }
  assert (∀ c, c ∈ tr2 → c ∈ calls s) as Hin2.
  { intros c Hc. rewrite Htr. apply elem_of_app. by right. }
  assert (∀ i resp, register_targets_call A i resp ∈ tr2 →
                    ∃ u, resp = Returned u) as HgA.
  { intros i resp Hc%Hin2.
    destruct (registered_genuinely elb _ _ _ _ Ht Hc) as [h ->].
    by apply Hothers. }
  assert (∀ i resp, register_targets_call B i resp ∈ tr2 →
                    ∃ e, resp = Raised e) as HgB.
  { intros i resp Hc%Hin2.
    destruct (registered_genuinely elb _ _ _ _ Ht Hc) as [h ->].
    by apply HB. }
  assert (r = Results (omap registered_by tr2) [] (omap deregistered_by tr2)
                (omap (failure_of "describe_health") tr2)) as ->.
  { unfold r. rewrite He. unfold results_of_calls. rewrite Hsnap, Htr.
    by rewrite !omap_app, Hr1, Hd1, Hf1. }
  clearbody s.
  destruct Harn as [Harn|Harn]; rewrite Harn in Hq2; simpl in Hq2;
    destruct tr2 as [|c1 [|c2 [|c3 tr2]]]; simplify_eq/=;
    destruct c1 as [| |a1 i1 r1], c2 as [| |a2 i2 r2]; simplify_eq/=.
  - assert (∃ u, r1 = Returned u) as [u ->] by (eapply HgA; by left).
    assert (∃ e, r2 = Raised e) as [e ->] by (eapply HgB; by right; left).
    simpl. eauto.
  - assert (∃ e, r1 = Raised e) as [e ->] by (eapply HgB; by left).
    assert (∃ u, r2 = Returned u) as [u ->] by (eapply HgA; by right; left).
    simpl. eauto.
Qed.

(** C5, as amended. With the groups [C] and [D], a health query that raises
    for [C] and reports the instance in [D], and any non-empty desired set:
    [D] is in [already_registered], is never registered again, and is asked
    to be deregistered exactly when it is not desired; [C] has its
    [describe_health] record in [failed], is in neither [already_registered]
    nor [deregistered], and no [deregister_targets] call is issued for it; no
    [register_targets] call is issued for [C] when it is not desired, and one
    is issued when it is. *)
Theorem unreachable_group_skipped elb instance_id tgs C D :
  unreachable_group elb instance_id C D → tgs ≠ [] →
  let s := register_instance_to_target_groups elb instance_id tgs in
  (D ∈ already_registered (res s) ∧ (D ∉ registered (res s))) ∧
  (D ∉ arn <$> tgs → ∃ r, deregister_targets_call D instance_id r ∈ calls s) ∧
  (D ∈ arn <$> tgs →
   (D ∉ deregistered (res s)) ∧
   ∀ i r, deregister_targets_call D i r ∉ calls s) ∧
  (∃ e, Failure (Some C) "describe_health" e ∈ failed (res s)) ∧
  (C ∉ already_registered (res s)) ∧ (C ∉ deregistered (res s)) ∧
  (∀ i r, deregister_targets_call C i r ∉ calls s) ∧
  (C ∉ arn <$> tgs →
   (C ∉ registered (res s)) ∧ ∀ i r, register_targets_call C i r ∉ calls s) ∧
  (C ∈ arn <$> tgs → ∃ r, register_targets_call C instance_id r ∈ calls s).
Proof.
  intros (HCD & Hok & Hgroups & HC & HD) Htgs s.
  destruct (reconciled_spec elb instance_id tgs Htgs Hok) as (He & Ht & Hq).
  fold s in He, Ht, Hq.
  pose proof (reconciled_call instance_id elb tgs Htgs Hok) as Hcall.
  fold s in Hcall.
  assert (D ∈ snapshot instance_id (calls s)) as HDin.
  { destruct (description_issued (calls s) _ _ D Hq) as [r Hc].
    { apply Hgroups. by right. }
    destruct (described_genuinely elb _ _ _ Ht Hc) as [h ->].
    destruct (HD h) as (ids & Hids & Hi). rewrite Hids in Hc.
    apply elem_of_snapshot. eauto. }
  assert (C ∉ snapshot instance_id (calls s)) as HCout.
  { intros (ids & Hc & _)%elem_of_snapshot.
    destruct (described_genuinely elb _ _ _ Ht Hc) as [h Hh].
    destruct (HC h) as [e He']. congruence. }
  assert (∀ a, a ∈ registered (res s) →
               ∃ i r, register_targets_call a i r ∈ calls s) as Hreg.
  { intros a. rewrite He. simpl.
    intros (i & u & Hc)%elem_of_registered_by. eauto. }
  assert (∀ a, a ∈ deregistered (res s) →
               ∃ i r, deregister_targets_call a i r ∈ calls s) as Hdereg.
  { intros a. rewrite He. simpl.
    intros (i & u & Hc)%elem_of_deregistered_by. eauto. }
  assert (∀ i r, deregister_targets_call C i r ∉ calls s) as HCd.
  { intros i r Hc. by apply Hcall in Hc as (_ & ? & _). }
  split_and!.
  - by rewrite He.
  - intros (i & r & Hc)%Hreg. by apply Hcall in Hc as (_ & _ & ?).
  - intros HDout.
    by apply (deregistration_issued instance_id elb tgs Htgs Hok).
  - intros HDdes.
    assert (∀ i r, deregister_targets_call D i r ∉ calls s) as HDd.
    { intros i r Hc. by apply Hcall in Hc as (_ & _ & ?). }
    split; [|done]. intros (i & r & Hc)%Hdereg. by apply HDd in Hc.
  - destruct (description_issued (calls s) _ _ C Hq) as [r Hc].
    { apply Hgroups. by left. }
    destruct (described_genuinely elb _ _ _ Ht Hc) as [h ->].
    destruct (HC h) as [e He']. rewrite He' in Hc. exists e.
    rewrite He. simpl. apply list_elem_of_omap. eexists. split; [exact Hc|done].
  - by rewrite He.
  - intros (i & r & Hc)%Hdereg. by apply HCd in Hc.
  - done.
  - intros HCundes.
    assert (∀ i r, register_targets_call C i r ∉ calls s) as HCr.
    { intros i r Hc. by apply Hcall in Hc as (_ & ? & _). }
    split; [|done]. intros (i & r & Hc)%Hreg. by apply HCr in Hc.
  - intros HCdes.
    by apply (registration_issued instance_id elb tgs Htgs Hok).
Qed.

(** ** The reconcile call on sample providers *)

(** Groups [A] and [B], the instance a member of [A], [B] desired: [A] is
    deregistered and stays in [already_registered], [B] is registered. *)
Example sample_reconcile :
  register_instance_to_target_groups
    (sample_elb ["A"; "B"] ["A"] [] [] None) "i-0a1" [TargetGroup "B" 80] =
  State (Results ["B"] ["A"] ["A"] [])
    [describe_target_health_call "A" (Returned ["i-0ff"; "i-0a1"]);
     describe_target_health_call "B" (Returned ["i-0ff"]);
     deregister_targets_call "A" "i-0a1" (Returned ());
     register_targets_call "B" "i-0a1" (Returned ())].
Proof. vm_compute. reflexivity. Qed.

(** The same provider and an empty desired set: [A] is written to
    [deregistered] and the provider is only asked about health. *)
Example sample_empty_desired :
  register_instance_to_target_groups
    (sample_elb ["A"; "B"] ["A"] [] [] None) "i-0a1" [] =
  State (Results [] [] ["A"] [])
    [describe_target_health_call "A" (Returned ["i-0ff"; "i-0a1"]);
     describe_target_health_call "B" (Returned ["i-0ff"])].
Proof. vm_compute. reflexivity. Qed.

(** The listing raises after the page was consumed: [A] stays in
    [already_registered]. *)
Example sample_listing_failure :
  res (register_instance_to_target_groups
         (sample_elb ["A"; "B"] ["A"] [] [] (Some "Throttling")) "i-0a1"
         [TargetGroup "B" 80]) =
  Results [] ["A"] [] [Failure None "describe_target_groups" "Throttling"].
Proof. vm_compute. reflexivity. Qed.

(** The health of [C] cannot be asked and [C] is desired: it is registered. *)
Example sample_unreachable :
  register_instance_to_target_groups
    (sample_elb ["C"; "D"] ["D"] ["C"] [] None) "i-0a1" [TargetGroup "C" 80] =
  State (Results ["C"] ["D"] ["D"]
           [Failure (Some "C") "describe_health" "AccessDenied"])
    [describe_target_health_call "C" (Raised "AccessDenied");
     describe_target_health_call "D" (Returned ["i-0ff"; "i-0a1"]);
     deregister_targets_call "D" "i-0a1" (Returned ());
     register_targets_call "C" "i-0a1" (Returned ())].
Proof. vm_compute. reflexivity. Qed.



(** The instance a member of [A] and [B], [B] desired. *)
Lemma snapshot_classified_witness :
  let elb := sample_elb ["A"; "B"] ["A"; "B"] [] [] None in
  let tgs := [TargetGroup "B" 80] in
  let s := register_instance_to_target_groups elb "i-0a1" tgs in
  tgs ≠ [] ∧ paginate_error elb = None ∧
  "A" ∈ snapshot "i-0a1" (calls s) ∧
  ("A" ∉ arn <$> tgs → ∃ r, deregister_targets_call "A" "i-0a1" r ∈ calls s) ∧
  ("A" ∈ arn <$> tgs → "A" ∈ already_registered (res s)) ∧
  (∀ i r, register_targets_call "A" i r ∉ calls s).
Proof.
  assert ([TargetGroup "B" 80] ≠ []) as Htgs by done.
  assert (paginate_error (sample_elb ["A"; "B"] ["A"; "B"] [] [] None) = None)
    as Hok by reflexivity.
  assert ("A" ∈ snapshot "i-0a1"
            (calls (register_instance_to_target_groups
                      (sample_elb ["A"; "B"] ["A"; "B"] [] [] None) "i-0a1"
                      [TargetGroup "B" 80]))) as Hin by by_evaluation.
  split; [exact Htgs|]. split; [exact Hok|]. split; [exact Hin|].
  exact (snapshot_classified _ "i-0a1" _ "A" Htgs Hok Hin).
Defined.

(** On [sample_reconcile] the two buckets share [A]. *)
Lemma deregistered_already_registered_witness :
  let tgs := [TargetGroup "B" 80] in
  let r := res (register_instance_to_target_groups
                  (sample_elb ["A"; "B"] ["A"] [] [] None) "i-0a1" tgs) in
  tgs ≠ [] ∧ deregistered r = ["A"] ∧
  deregistered r ⊆ already_registered r ∧
  (deregistered r ≠ [] → ∃ a, a ∈ deregistered r ∧ a ∈ already_registered r).
Proof.
  assert ([TargetGroup "B" 80] ≠ []) as Htgs by done.
  split; [exact Htgs|]. split; [vm_compute; reflexivity|].
  exact (deregistered_already_registered
           (sample_elb ["A"; "B"] ["A"] [] [] None) "i-0a1" _ Htgs).
Defined.

(** A failed listing as specified fails on [sample_listing_failure]. *)
Lemma listing_failure_aborts_counterexample :
  ¬ listing_failure_leaves_nothing
      (sample_elb ["A"; "B"] ["A"] [] [] (Some "Throttling")) "i-0a1"
      [TargetGroup "B" 80].
Proof.
  intros H. specialize (H "Throttling"). cbv zeta in H.
  assert (already_registered
            (res (register_instance_to_target_groups
                    (sample_elb ["A"; "B"] ["A"] [] [] (Some "Throttling"))
                    "i-0a1" [TargetGroup "B" 80])) = ["A"]) as Ha
    by (vm_compute; reflexivity).
  rewrite H in Ha; [discriminate Ha|done|reflexivity].
Qed.

(** A failed listing after a page on which the health query of [B]
    raised: the record of [B] comes before the record of the listing. *)
Example sample_listing_failure_records :
  failed (res (register_instance_to_target_groups
                 (sample_elb ["A"; "B"; "C"] ["A"] ["B"] []
                    (Some "Throttling")) "i-0a1" [TargetGroup "B" 80])) =
  [Failure (Some "B") "describe_health" "AccessDenied";
   Failure None "describe_target_groups" "Throttling"].
Proof. vm_compute. reflexivity. Qed.

Lemma listing_failure_aborts_witness :
  let elb := sample_elb ["A"; "B"; "C"] ["A"] ["B"] [] (Some "Throttling") in
  let tgs := [TargetGroup "B" 80] in
  let s := register_instance_to_target_groups elb "i-0a1" tgs in
  tgs ≠ [] ∧ paginate_error elb = Some "Throttling" ∧
  registered (res s) = [] ∧ deregistered (res s) = [] ∧
  already_registered (res s) = snapshot "i-0a1" (calls s) ∧
  failed (res s) =
    omap (failure_of "describe_health") (calls s) ++
    [Failure None "describe_target_groups" "Throttling"] ∧
  trace_of elb (calls s) ∧
  request_of <$> calls s =
    describe_target_health_request <$> concat (pages elb) ∧
  ∀ c, c ∈ calls s → is_describe c.
Proof.
  assert ([TargetGroup "B" 80] ≠ []) as Htgs by done.
  assert (paginate_error
            (sample_elb ["A"; "B"; "C"] ["A"] ["B"] [] (Some "Throttling")) =
          Some "Throttling") as Herr by reflexivity.
  split; [exact Htgs|]. split; [exact Herr|].
  exact (listing_failure_aborts _ "i-0a1" _ _ Htgs Herr).
Defined.

(** Three groups, the instance a member of [A] and [B]. *)
Lemma empty_desired_deregisters_members_witness :
  let elb := sample_elb ["A"; "X"; "B"] ["A"; "B"] [] [] None in
  let r := res (register_instance_to_target_groups elb "i-0a1" []) in
  member_of_exactly elb "i-0a1" ["A"; "B"] ∧
  (∀ a, a ∈ deregistered r ↔ a = "A" ∨ a = "B") ∧
  registered r = [] ∧ already_registered r = [].
Proof.
  assert (member_of_exactly
            (sample_elb ["A"; "X"; "B"] ["A"; "B"] [] [] None) "i-0a1"
            ["A"; "B"]) as Hmem.
  { split; [reflexivity|]. split.
    - intros a Ha. each_group Ha; by_evaluation.
    - intros h a Ha. each_group Ha; eexists; (split; [reflexivity|]);
        by_evaluation. }
  split; [exact Hmem|].
  exact (empty_desired_deregisters_members _ "i-0a1" "A" "B" Hmem).
Defined.

(** [A] and [B] desired, [B] refused. *)
Lemma registration_failure_isolated_witness :
  let elb := sample_elb ["X"] [] [] ["B"] None in
  let tgs := [TargetGroup "A" 80; TargetGroup "B" 443] in
  let r := res (register_instance_to_target_groups elb "i-0a1" tgs) in
  "A" ≠ "B" ∧
  (arn <$> tgs = ["A"; "B"] ∨ arn <$> tgs = ["B"; "A"]) ∧
  member_of_exactly elb "i-0a1" [] ∧
  register_fails_only_for elb "B" ∧
  registered r = ["A"] ∧
  (∃ e, failed r = [Failure (Some "B") "register" e]) ∧
  already_registered r = [] ∧ deregistered r = [].
Proof.
  assert ("A" ≠ "B") as HAB by done.
  assert (arn <$> [TargetGroup "A" 80; TargetGroup "B" 443] = ["A"; "B"] ∨
          arn <$> [TargetGroup "A" 80; TargetGroup "B" 443] = ["B"; "A"])
    as Harn by (left; reflexivity).
  assert (member_of_exactly (sample_elb ["X"] [] [] ["B"] None) "i-0a1" [])
    as Hmem.
  { split; [reflexivity|]. split.
    - intros a Ha. by apply elem_of_nil in Ha.
    - intros h a Ha. each_group Ha; eexists; (split; [reflexivity|]);
        by_evaluation. }
  assert (register_fails_only_for (sample_elb ["X"] [] [] ["B"] None) "B")
    as Hfail.
  { split.
    - intros h i. eexists. reflexivity.
    - intros h a i Ha. exists (). simpl.
      rewrite bool_decide_eq_false_2; [done|].
      by intros ->%list_elem_of_singleton. }
  split; [exact HAB|]. split; [exact Harn|]. split; [exact Hmem|].
  split; [exact Hfail|].
  exact (registration_failure_isolated _ "i-0a1" _ "A" "B"
           HAB Harn Hmem Hfail).
Defined.

(** Isolation as specified fails on [sample_unreachable]: the scenario
    holds and [C] is registered. *)
Lemma unreachable_group_skipped_counterexample :
  unreachable_group (sample_elb ["C"; "D"] ["D"] ["C"] [] None) "i-0a1" "C" "D"
  ∧ ¬ isolated (sample_elb ["C"; "D"] ["D"] ["C"] [] None) "i-0a1" "C" "D"
        [TargetGroup "C" 80].
Proof.
  split.
  - split; [done|]. split; [reflexivity|]. split; [|split].
    + intros a. simpl. rewrite !elem_of_cons, elem_of_nil. tauto.
    + intros h. eexists. reflexivity.
    + intros h. eexists. split; [reflexivity|]. by_evaluation.
  - intros (_ & _ & _ & Hreg & _). apply Hreg. by_evaluation.
Qed.

(** The same provider with a third group desired. *)
Lemma unreachable_group_skipped_witness :
  let elb := sample_elb ["C"; "D"] ["D"] ["C"] [] None in
  let tgs := [TargetGroup "E" 80] in
  let s := register_instance_to_target_groups elb "i-0a1" tgs in
  unreachable_group elb "i-0a1" "C" "D" ∧ tgs ≠ [] ∧
  ("D" ∈ already_registered (res s) ∧ ("D" ∉ registered (res s))) ∧
  ("D" ∉ arn <$> tgs → ∃ r, deregister_targets_call "D" "i-0a1" r ∈ calls s) ∧
  ("D" ∈ arn <$> tgs →
   ("D" ∉ deregistered (res s)) ∧
   ∀ i r, deregister_targets_call "D" i r ∉ calls s) ∧
  (∃ e, Failure (Some "C") "describe_health" e ∈ failed (res s)) ∧
  ("C" ∉ already_registered (res s)) ∧ ("C" ∉ deregistered (res s)) ∧
  (∀ i r, deregister_targets_call "C" i r ∉ calls s) ∧
  ("C" ∉ arn <$> tgs →
   ("C" ∉ registered (res s)) ∧
   ∀ i r, register_targets_call "C" i r ∉ calls s) ∧
  ("C" ∈ arn <$> tgs → ∃ r, register_targets_call "C" "i-0a1" r ∈ calls s).
Proof.
  assert (unreachable_group (sample_elb ["C"; "D"] ["D"] ["C"] [] None)
            "i-0a1" "C" "D") as Hsc.
  { split; [done|]. split; [reflexivity|]. split; [|split].
    - intros a. simpl. rewrite !elem_of_cons, elem_of_nil. tauto.
    - intros h. eexists. reflexivity.
    - intros h. eexists. split; [reflexivity|]. by_evaluation. }
  assert ([TargetGroup "E" 80] ≠ []) as Htgs by done.
  split; [exact Hsc|]. split; [exact Htgs|].
  exact (unreachable_group_skipped _ "i-0a1" _ "C" "D" Hsc Htgs).
Defined.

(** ** The node configuration *)

Lemma select_target_group_object fields :
  select_target_group (JObj fields) =
  Returned (if has truthy "arn" (JObj fields) && has truthy "port" (JObj fields)
            then [binding_of (JObj fields)] else []).
Proof.
  unfold select_target_group, has, binding_of. simpl.
  destruct (dict_lookup "arn" fields) as [a|]; simpl; [|done].
  destruct (truthy a); simpl; [|done].
  destruct (dict_lookup "port" fields) as [p|]; simpl; [|done].
  by destruct (truthy p).
Qed.

Lemma select_target_groups_objects items :
  Forall is_object items →
  select_target_groups items =
  Returned (binding_of <$>
              filter (λ tg, has truthy "arn" tg && has truthy "port" tg) items).
Proof.
  induction 1 as [|tg items [fields ->] _ IH]; [done|].
  simpl. rewrite select_target_group_object, IH. simpl.
  rewrite filter_cons. case_decide as Hk.
  - by rewrite (Is_true_true_1 _ Hk).
  - by rewrite (Is_true_false_1 _ Hk).
Qed.

(** C8, as amended. For a response of the expected shape the function
    raises nothing and returns the entries whose [arn] and [port] are both
    present and true as Python takes them, each projected to [{arn, port}],
    in the order of the response. *)
Theorem target_groups_filtered data :
  expected_shape data →
  get_target_groups_for_node (Returned data) =
  Returned (bindings truthy data).
Proof.
  intros Hshape. unfold get_target_groups_for_node, bindings, entries.
  destruct data as [|b|n|s|items|fields]; cbn -[dict_lookup] in *;
    [done|by rewrite Hshape..|by destruct items|].
  destruct fields as [|kv fields]; [done|].
  set (fs := kv :: fields) in *.
  destruct (dict_lookup "eks" fs) as [eks|]; cbn -[dict_lookup]; [|done].
  destruct eks as [| | | | |eks]; try done. cbn -[dict_lookup].
  destruct (dict_lookup "targetGroups" eks) as [tgs|]; cbn -[dict_lookup];
    [|done].
  destruct tgs as [| | | |items|]; try done. cbn -[dict_lookup].
  by apply select_target_groups_objects.
Qed.

(** The entry with port 0 is dropped; the one with port 443 is kept. *)
Example sample_zero_port :
  get_target_groups_for_node (Returned zero_port_response) =
  Returned [JObj [("arn", JStr "tg_arn_2"); ("port", JNum 443)]].
Proof. vm_compute. reflexivity. Qed.

(** A response whose ['eks'] is [None] raises. *)
Example sample_null_eks :
  get_target_groups_for_node (Returned (JObj [("eks", JNull)])) =
  Raised "AttributeError".
Proof. vm_compute. reflexivity. Qed.

(** An error of the request is passed on. *)
Lemma fetch_error_raised e :
  get_target_groups_for_node (Raised e) = Raised e.
Proof. reflexivity. Qed.

(** The filter as specified fails on [zero_port_response]: both fields of
    the first entry are present and hold something. *)
Lemma target_groups_filtered_counterexample :
  ¬ keeps_complete_entries zero_port_response.
Proof. unfold keeps_complete_entries. vm_compute. discriminate. Qed.

Lemma target_groups_filtered_witness :
  expected_shape zero_port_response ∧
  get_target_groups_for_node (Returned zero_port_response) =
  Returned (bindings truthy zero_port_response).
Proof.
  assert (expected_shape zero_port_response) as Hshape.
  { simpl. repeat constructor; by eexists. }
  split; [exact Hshape|].
  exact (target_groups_filtered zero_port_response Hshape).
Defined.

(** ** The cycle *)

(** One round of the loop on an item that is read. *)
Lemma process_nodes_cons w k c g n rest earlier :
  process_nodes w k c g (well_formed n :: rest) earlier =
  let r := process_node w k c g n earlier in
  let p := process_nodes w k c g rest (earlier ++ issued_calls r) in
  ((n, r) :: p.1, p.2).
Proof.
  simpl.
  by destruct (process_nodes w k c g rest
                 (earlier ++ issued_calls (process_node w k c g n earlier))).
Qed.

Lemma process_nodes_reports w k c g items earlier n rep :
  (n, rep) ∈ (process_nodes w k c g items earlier).1 →
  ∃ h, rep = process_node w k c g n h.
Proof.
  revert earlier. induction items as [|[m|e] items IH]; intros earlier Hin.
  - by apply elem_of_nil in Hin.
  - rewrite process_nodes_cons in Hin. simpl in Hin.
    apply elem_of_cons in Hin as [[= -> ->]|Hin]; [eauto|].
    by apply IH in Hin.
  - by apply elem_of_nil in Hin.
Qed.

(** The reports of a cycle, whichever way it ends. *)
Lemma reports_of_main env w :
  reports_of (main env w) =
  match set_variable (API_KEY env), set_variable (CLUSTER_ID env),
        set_variable (AWS_REGION env) with
  | Some k, Some c, Some g =>
      match get_cluster_nodes w k c with
      | Returned items => (process_nodes w k c g items []).1
      | Raised _ => []
      end
  | _, _, _ => []
  end.
Proof.
  unfold main.
  destruct (set_variable (API_KEY env)) as [k|]; [|done].
  destruct (set_variable (CLUSTER_ID env)) as [c|]; [|done].
  destruct (set_variable (AWS_REGION env)) as [g|]; [|done].
  destruct (get_cluster_nodes w k c) as [[|i items]|e]; [done| |done].
  by destruct (process_nodes w k c g (i :: items) []) as [reports [e|]].
Qed.

(** Every report of a cycle is the report of a round of the loop. *)
Lemma main_reports env w n rep :
  (n, rep) ∈ reports_of (main env w) →
  ∃ k c g h,
    set_variable (API_KEY env) = Some k ∧
    set_variable (CLUSTER_ID env) = Some c ∧
    set_variable (AWS_REGION env) = Some g ∧
    rep = process_node w k c g n h.
Proof.
  rewrite reports_of_main.
  destruct (set_variable (API_KEY env)) as [k|];
    [|by intros ?%elem_of_nil].
  destruct (set_variable (CLUSTER_ID env)) as [c|];
    [|by intros ?%elem_of_nil].
  destruct (set_variable (AWS_REGION env)) as [g|];
    [|by intros ?%elem_of_nil].
  destruct (get_cluster_nodes w k c) as [items|e];
    [|by intros ?%elem_of_nil].
  intros [h ->]%process_nodes_reports. exists k, c, g, h. done.
Qed.

(** A reconcile call registers and deregisters its own instance only. *)
Lemma mutations_of_instance elb instance_id tgs c i :
  c ∈ calls (register_instance_to_target_groups elb instance_id tgs) →
  mutated_instance c = Some i → i = instance_id.
Proof.
  intros Hc Hi. destruct (decide (tgs = [])) as [->|Htgs].
  - destruct (drained_spec elb instance_id) as (_ & _ & _ & _ & _ & Hq).
    destruct (describes_are_describes _ _ c Hq Hc) as (a & r & ->). done.
  - destruct (paginate_error elb) as [e|] eqn:Hp.
    + destruct (listing_failed_spec elb instance_id tgs e Htgs Hp)
        as (_ & _ & _ & _ & _ & Hq).
      destruct (describes_are_describes _ _ c Hq Hc) as (a & r & ->). done.
    + apply (reconciled_call instance_id elb tgs Htgs Hp) in Hc.
      destruct c; simplify_eq/=; by destruct Hc.
Qed.

(** C9. In every cycle a node that is not managed or not ready is reported
    as skipped and no provider call is issued while it is processed; and
    when no eligible node of the inventory shares its instance id, no call
    of the cycle registers or deregisters that instance. *)
Theorem ineligible_node_skipped env w n rep :
  let reports := reports_of (main env w) in
  (n, rep) ∈ reports → eligible n = false →
  rep = skipped ∧ issued_calls rep = [] ∧
  ((∀ m, m ∈ reports.*1 → eligible m = true → instanceId m ≠ instanceId n) →
   ∀ m r c, (m, r) ∈ reports → c ∈ issued_calls r →
            mutated_instance c ≠ Some (instanceId n)).
Proof.
  intros reports Hin Hn.
  assert (∀ m r, (m, r) ∈ reports →
                 ∃ k c g h, r = process_node w k c g m h) as Hrep.
  { intros m r (k & c & g & h & _ & _ & _ & ->)%main_reports. eauto. }
  assert (rep = skipped) as ->.
  { destruct (Hrep _ _ Hin) as (k & c & g & h & ->).
    unfold process_node. by rewrite Hn. }
  split_and!; [done..|].
  intros Hids m r c Hm Hc Hi.
  destruct (Hrep _ _ Hm) as (k & c' & g & h & ->).
  assert (m ∈ reports.*1) as Hinv.
  { apply list_elem_of_fmap. eexists. split; [|exact Hm]. done. }
  unfold process_node in Hc.
  destruct (eligible m) eqn:He; [|by apply elem_of_nil in Hc].
  destruct (node_target_groups w k c' _) as [tgs|e];
    [|by apply elem_of_nil in Hc].
  destruct (boto3_client w g h) as [elb|e]; [|by apply elem_of_nil in Hc].
  simpl in Hc. apply (mutations_of_instance _ _ _ _ _ Hc) in Hi.
  by apply (Hids m).
Qed.

(** The sample inventory: the draining node and the node of another
    provisioner are skipped, the ready node is reconciled. *)
Example sample_cycle :
  (reports_of (main sample_environ sample_services)).*2 =
  [skipped;
   operation_results (Results ["B"] ["A"] ["A"] [])
     [describe_target_health_call "A" (Returned ["i-0ff"; "i-0a1"]);
      describe_target_health_call "B" (Returned ["i-0ff"]);
      deregister_targets_call "A" "i-0a1" (Returned ());
      register_targets_call "B" "i-0a1" (Returned ())];
   skipped].
Proof. vm_compute. reflexivity. Qed.

Lemma ineligible_node_skipped_witness :
  let reports := reports_of (main sample_environ sample_services) in
  (draining_node, skipped) ∈ reports ∧
  eligible draining_node = false ∧
  skipped = skipped ∧ issued_calls skipped = [] ∧
  ((∀ m, m ∈ reports.*1 → eligible m = true →
         instanceId m ≠ instanceId draining_node) →
   ∀ m r c, (m, r) ∈ reports → c ∈ issued_calls r →
            mutated_instance c ≠ Some (instanceId draining_node)).
Proof.
  assert ((draining_node, skipped) ∈
          reports_of (main sample_environ sample_services)) as Hin.
  { vm_compute. left. }
  assert (eligible draining_node = false) as Hn by (vm_compute; reflexivity).
  split; [exact Hin|]. split; [exact Hn|].
  exact (ineligible_node_skipped _ _ _ _ Hin Hn).
Defined.

(** ** More on the reconcile call *)

(** The requests of any call, whatever the desired set and the listing. *)
Lemma requests_spec elb instance_id tgs :
  let s := register_instance_to_target_groups elb instance_id tgs in
  ∃ us rs,
    request_of <$> calls s =
    (describe_target_health_request <$> concat (pages elb)) ++
    ((λ a, deregister_targets_request a instance_id) <$> us) ++
    ((λ a, register_targets_request a instance_id) <$> rs) ∧
    (tgs ≠ [] → paginate_error elb = None →
     us = filter (λ a, a ∉ arn <$> tgs) (snapshot instance_id (calls s)) ∧
     rs = filter (λ a, a ∉ snapshot instance_id (calls s)) (arn <$> tgs)) ∧
    (tgs = [] ∨ is_Some (paginate_error elb) → us = [] ∧ rs = []).
Proof.
  intros s. destruct (decide (tgs = [])) as [->|Htgs].
  - destruct (drained_spec elb instance_id) as (_ & _ & _ & _ & _ & Hq).
    exists [], []. fold s in Hq. rewrite Hq. simpl. rewrite app_nil_r.
    split_and!; [done|done|done].
  - destruct (paginate_error elb) as [e|] eqn:Hp.
    + destruct (listing_failed_spec elb instance_id tgs e Htgs Hp)
        as (_ & _ & _ & _ & _ & Hq).
      exists [], []. fold s in Hq. rewrite Hq. simpl. rewrite app_nil_r.
      split_and!; [done|done|done].
    + destruct (reconciled_spec elb instance_id tgs Htgs Hp) as (_ & _ & Hq).
      eexists _, _. split; [exact Hq|]. split; [done|].
      intros [?|[? ?]]; done.
Qed.

Lemma omap_fmap_some {A B} (p : B → option A) (f : A → B) (l : list A) :
  (∀ a, p (f a) = Some a) → omap p (f <$> l) = l.
Proof.
  intros Hp. induction l as [|a l IH]; [done|].
  simpl. rewrite Hp. f_equal. exact IH.
Qed.

Lemma omap_fmap_none {A B C} (p : B → option C) (f : A → B) (l : list A) :
  (∀ a, p (f a) = None) → omap p (f <$> l) = [].
Proof.
  intros Hp. induction l as [|a l IH]; [done|].
  simpl. rewrite Hp. exact IH.
Qed.

(** X2. The health of every listed group is asked once per listing, in the
    order of the pages, whatever the desired set and whether or not the
    listing ends with an error. *)
Theorem every_group_described elb instance_id tgs :
  omap described
    (request_of <$>
       calls (register_instance_to_target_groups elb instance_id tgs)) =
  concat (pages elb).
Proof.
  destruct (requests_spec elb instance_id tgs) as (us & rs & Hq & _).
  rewrite Hq, !omap_app.
  rewrite (omap_fmap_some described) by done.
  rewrite (omap_fmap_none described) by done.
  rewrite (omap_fmap_none described) by done.
  by rewrite !app_nil_r.
Qed.

Lemma requests_are (P : call → Prop) (f : string → request)
  (tr : list call) (l : list string) :
  (∀ c a, request_of c = f a → P c) →
  request_of <$> tr = f <$> l → Forall P tr.
Proof.
  intros HP. revert l. induction tr as [|c tr IH]; intros l Hq; [done|].
  destruct l as [|a l]; [done|]. injection Hq as Hc Hq.
  constructor; [by apply (HP c a)|by apply (IH l)].
Qed.

(** X1. The calls of a reconcile call come in three phases: the health
    queries, then the deregistrations, then the registrations. No group is
    deregistered after a registration was attempted, and nothing is asked
    once a membership was changed. *)
Theorem calls_in_phases elb instance_id tgs :
  ∃ ds us rs,
    calls (register_instance_to_target_groups elb instance_id tgs) =
    ds ++ us ++ rs ∧
    Forall is_describe ds ∧ Forall is_deregister us ∧ Forall is_register rs.
Proof.
  destruct (requests_spec elb instance_id tgs) as (us & rs & Hq & _).
  apply fmap_app_inv in Hq as (ds & tr & Hds & Htr & ->).
  symmetry in Hds, Htr.
  apply fmap_app_inv in Htr as (us' & rs' & Hus & Hrs & ->).
  symmetry in Hus, Hrs.
  exists ds, us', rs'. split; [done|]. split_and!.
  - apply (requests_are _ describe_target_health_request _ (concat (pages elb)));
      [|done].
    intros c a Hc. destruct c; simplify_eq/=. by eexists _, _.
  - apply (requests_are _ (λ a, deregister_targets_request a instance_id) _ us);
      [|done].
    intros c a Hc. destruct c; simplify_eq/=. by eexists _, _, _.
  - apply (requests_are _ (λ a, register_targets_request a instance_id) _ rs);
      [|done].
    intros c a Hc. destruct c; simplify_eq/=. by eexists _, _, _.
Qed.

(** X5. When the desired set is not empty and the listing goes through,
    the groups asked to be deregistered are, in order, the groups of the
    snapshot that are not desired, and the groups asked to be registered
    are, in order, the desired groups that are not in the snapshot: each gets
    its call whatever the calls before it answered. *)
Theorem every_change_attempted elb instance_id tgs :
  tgs ≠ [] → paginate_error elb = None →
  let s := register_instance_to_target_groups elb instance_id tgs in
  omap deregistration (request_of <$> calls s) =
    filter (λ a, a ∉ arn <$> tgs) (snapshot instance_id (calls s)) ∧
  omap registration (request_of <$> calls s) =
    filter (λ a, a ∉ snapshot instance_id (calls s)) (arn <$> tgs).
Proof.
  intros Htgs Hok s.
  destruct (reconciled_spec elb instance_id tgs Htgs Hok) as (_ & _ & Hq).
  fold s in Hq. rewrite Hq, !omap_app. split.
  - rewrite (omap_fmap_none deregistration) by done.
    rewrite (omap_fmap_some deregistration) by done.
    rewrite (omap_fmap_none deregistration) by done.
    by rewrite app_nil_r.
  - rewrite (omap_fmap_none registration) by done.
    rewrite (omap_fmap_none registration) by done.
    by rewrite (omap_fmap_some registration) by done.
Qed.

(** What a call that changes a membership says about its group, for every
    desired set and listing. *)
Lemma mutation_justified elb instance_id tgs c :
  let s := register_instance_to_target_groups elb instance_id tgs in
  c ∈ calls s →
  match c with
  | describe_target_health_call a _ => a ∈ concat (pages elb)
  | deregister_targets_call a i _ =>
      i = instance_id ∧ a ∈ snapshot instance_id (calls s) ∧ a ∉ arn <$> tgs
  | register_targets_call a i _ =>
      i = instance_id ∧ a ∈ arn <$> tgs ∧ a ∉ snapshot instance_id (calls s)
  end.
Proof.
  intros s Hc.
  assert (∀ l, request_of <$> calls s = describe_target_health_request <$> l →
               ∃ a r, c = describe_target_health_call a r ∧ a ∈ l) as Hdesc.
  { intros l Hq. apply call_requested in Hc. rewrite Hq in Hc.
    apply list_elem_of_fmap in Hc as (a & Ha & Hin).
    destruct c; simplify_eq/=. eauto. }
  destruct (decide (tgs = [])) as [->|Htgs].
  - destruct (drained_spec elb instance_id) as (_ & _ & _ & _ & _ & Hq).
    by destruct (Hdesc _ Hq) as (a & r & -> & Ha).
  - destruct (paginate_error elb) as [e|] eqn:Hp.
    + destruct (listing_failed_spec elb instance_id tgs e Htgs Hp)
        as (_ & _ & _ & _ & _ & Hq).
      by destruct (Hdesc _ Hq) as (a & r & -> & Ha).
    + by apply (reconciled_call instance_id elb tgs Htgs Hp).
Qed.

(** X3. A reconcile call never deregisters the instance from a desired
    group and never registers it to a group that is not desired: a
    [deregister_targets] call is for a group of the snapshot that is not
    desired, a [register_targets] call for a desired group that is not in
    the snapshot, and both name the instance the call was made for. *)
Theorem changes_justified elb instance_id tgs a i r :
  let s := register_instance_to_target_groups elb instance_id tgs in
  (deregister_targets_call a i r ∈ calls s →
   i = instance_id ∧ a ∈ snapshot instance_id (calls s) ∧ a ∉ arn <$> tgs) ∧
  (register_targets_call a i r ∈ calls s →
   i = instance_id ∧ a ∈ arn <$> tgs ∧ a ∉ snapshot instance_id (calls s)).
Proof.
  intros s. split; intros Hc;
    exact (mutation_justified elb instance_id tgs _ Hc).
Qed.

Lemma filter_none {A} (P : A → Prop) `{!∀ x, Decision (P x)} (l : list A) :
  (∀ x, x ∈ l → ¬ P x) → filter P l = [].
Proof.
  induction l as [|x l IH]; intros Hall; [done|].
  rewrite filter_cons. destruct (decide (P x)) as [HP|_].
  - destruct (Hall x); [by left|done].
  - apply IH. intros y Hy. apply Hall. by right.
Qed.

(** X4. When the snapshot and the desired set hold the same groups, the
    call changes nothing: it only asks for the health of the groups, and
    [registered] and [deregistered] are empty. *)
Theorem in_sync_changes_nothing elb instance_id tgs :
  tgs ≠ [] → paginate_error elb = None →
  let s := register_instance_to_target_groups elb instance_id tgs in
  (∀ a, a ∈ snapshot instance_id (calls s) ↔ a ∈ arn <$> tgs) →
  (∀ c, c ∈ calls s → is_describe c) ∧
  registered (res s) = [] ∧ deregistered (res s) = [] ∧
  already_registered (res s) = snapshot instance_id (calls s).
Proof.
  intros Htgs Hok s Hsync.
  destruct (reconciled_spec elb instance_id tgs Htgs Hok) as (He & _ & Hq).
  fold s in He, Hq.
  rewrite (filter_none (λ a, a ∉ arn <$> tgs)) in Hq
    by (intros a Ha Hn; by apply Hn, Hsync).
  rewrite (filter_none (λ a, a ∉ snapshot instance_id (calls s))) in Hq
    by (intros a Ha Hn; by apply Hn, Hsync).
  simpl in Hq. rewrite app_nil_r in Hq.
  destruct (describes_only _ _ Hq) as [Hr Hd].
  split_and!.
  - intros c. by apply describes_are_describes with (l := concat (pages elb)).
  - by rewrite He.
  - by rewrite He.
  - by rewrite He.
Qed.

Lemma raised_failure tag (tr : list call) :
  (λ f, (failure_arn f, error f)) <$> omap (failure_of tag) tr =
  omap raised tr.
Proof.
  induction tr as [|c tr IH]; [done|].
  destruct c as [a [ids|e]|a i [u|e]|a i [u|e]]; simpl;
    try exact IH; f_equal; exact IH.
Qed.

(** X6. Every provider error is recorded and nothing else is: [failed] has
    one record for each call that raised, in the order of the calls, with
    the group and the error text of that call, followed by one record
    without a group when the listing raised. *)
Theorem every_error_recorded elb instance_id tgs :
  let s := register_instance_to_target_groups elb instance_id tgs in
  (λ f, (failure_arn f, error f)) <$> failed (res s) =
  omap raised (calls s) ++ listing_raised elb.
Proof.
  intros s. unfold listing_raised.
  destruct (decide (tgs = [])) as [->|Htgs].
  - destruct (drained_spec elb instance_id) as (_ & _ & _ & Hf & _).
    fold s in Hf. rewrite Hf, fmap_app, raised_failure.
    by destruct (paginate_error elb).
  - destruct (paginate_error elb) as [e|] eqn:Hp.
    + destruct (listing_failed_spec elb instance_id tgs e Htgs Hp)
        as (_ & _ & _ & Hf & _).
      fold s in Hf. by rewrite Hf, fmap_app, raised_failure.
    + destruct (reconciled_spec elb instance_id tgs Htgs Hp) as (He & _).
      fold s in He. rewrite He. simpl.
      by rewrite app_nil_r, <- (raised_failure "describe_health").
Qed.

(** X7. With a non-empty desired set the buckets report what the provider
    did: [registered] holds the groups whose [register_targets] call
    returned, [deregistered] those whose [deregister_targets] call returned,
    in the order of the calls. *)
Theorem successes_reported elb instance_id tgs :
  tgs ≠ [] →
  let s := register_instance_to_target_groups elb instance_id tgs in
  registered (res s) = omap registered_by (calls s) ∧
  deregistered (res s) = omap deregistered_by (calls s).
Proof.
  intros Htgs s. destruct (paginate_error elb) as [e|] eqn:Hp.
  - destruct (listing_failed_spec elb instance_id tgs e Htgs Hp)
      as (Hr & Hd & _ & _ & _ & Hq).
    fold s in Hr, Hd, Hq. destruct (describes_only _ _ Hq) as [-> ->]. done.
  - destruct (reconciled_spec elb instance_id tgs Htgs Hp) as (He & _).
    fold s in He. by rewrite He.
Qed.

(** X8. With an empty desired set every failure record carries the
    operation [deregister], be it for a health query or for the listing,
    although no call deregisters anything. *)
Theorem empty_desired_failures_tagged elb instance_id f :
  f ∈ failed (res (register_instance_to_target_groups elb instance_id [])) →
  operation f = "deregister".
Proof.
  destruct (drained_spec elb instance_id) as (_ & _ & _ & Hf & _ & Hq).
  rewrite Hf. intros [Hin|Hin]%elem_of_app.
  - apply list_elem_of_omap in Hin as (c & Hc & Hfc).
    destruct (describes_are_describes _ _ c Hq Hc) as (a & r & ->).
    destruct r; simplify_eq/=. done.
  - destruct (paginate_error elb); simpl in Hin.
    + by apply list_elem_of_singleton in Hin as ->.
    + by apply elem_of_nil in Hin.
Qed.

(** ** More on the node configuration *)

Lemma select_target_group_cases tg :
  (∃ fields, tg = JObj fields) ∨
  select_target_group tg = Raised "AttributeError".
Proof. destruct tg; eauto. Qed.

Lemma select_target_group_bindings tg chosen :
  select_target_group tg = Returned chosen → Forall binding chosen.
Proof.
  destruct (select_target_group_cases tg) as [[fields ->]|Hr];
    [|by rewrite Hr].
  rewrite select_target_group_object. unfold has, binding_of. simpl.
  destruct (dict_lookup "arn" fields) as [a|]; simpl;
    [|by intros [= <-]].
  destruct (truthy a) eqn:Ha; simpl; [|by intros [= <-]].
  destruct (dict_lookup "port" fields) as [p|]; simpl;
    [|by intros [= <-]].
  destruct (truthy p) eqn:Hp; intros [= <-]; [|done].
  repeat constructor. by exists a, p.
Qed.

Lemma select_target_groups_bindings items out :
  select_target_groups items = Returned out → Forall binding out.
Proof.
  revert out. induction items as [|tg items IH]; intros out.
  - by intros [= <-].
  - simpl. destruct (select_target_group tg) as [chosen|e] eqn:Hc; [|done].
    simpl. destruct (select_target_groups items) as [kept|e]; [|done].
    simpl. intros [= <-]. apply Forall_app. split.
    + by apply select_target_group_bindings with (tg := tg).
    + by apply IH.
Qed.

Lemma returned_are_bindings fetched out :
  get_target_groups_for_node fetched = Returned out → Forall binding out.
Proof.
  unfold get_target_groups_for_node.
  destruct fetched as [data|e]; [|done]. simpl.
  destruct (truthy data); simpl; [|by intros [= <-]].
  destruct (get data "eks" (JObj [])) as [eks|e]; [|done]. simpl.
  destruct (get eks "targetGroups" (JArr [])) as [tgs|e]; [|done]. simpl.
  destruct (len tgs) as [n|e]; [|done]. simpl.
  destruct (iterate tgs) as [items|e]; [|done]. simpl.
  apply select_target_groups_bindings.
Qed.

(** X9. Whatever the response, what [get_target_groups_for_node] returns
    is a list of dicts with the two keys ['arn'] and ['port'], each with a
    true value: the reconcile call is never handed a binding without an
    ARN. *)
Theorem returned_bindings fetched out :
  get_target_groups_for_node fetched = Returned out → Forall binding out.
Proof. apply returned_are_bindings. Qed.

Lemma select_target_groups_raises items :
  (∃ tg, tg ∈ items ∧ ¬ is_object tg) →
  select_target_groups items = Raised "AttributeError".
Proof.
  intros (tg & Hin & Hn). induction items as [|x items IH];
    [by apply elem_of_nil in Hin|].
  simpl. destruct (select_target_group_cases x) as [[fields ->]|Hr].
  - rewrite select_target_group_object. simpl.
    apply elem_of_cons in Hin as [->|Hin]; [destruct Hn; by eexists|].
    by rewrite (IH Hin).
  - by rewrite Hr.
Qed.

(** X10. One entry of ['targetGroups'] that is not a dict makes the whole
    call raise, whatever the other entries are: no binding of that
    configuration is returned. *)
Theorem malformed_entry_raises fields eks items tg :
  dict_lookup "eks" fields = Some (JObj eks) →
  dict_lookup "targetGroups" eks = Some (JArr items) →
  tg ∈ items → ¬ is_object tg →
  get_target_groups_for_node (Returned (JObj fields)) =
  Raised "AttributeError".
Proof.
  intros Heks Htgs Hin Hn. unfold get_target_groups_for_node.
  cbn -[dict_lookup]. destruct fields as [|kv fields]; [done|].
  cbn -[dict_lookup]. rewrite Heks. cbn -[dict_lookup]. rewrite Htgs.
  cbn -[dict_lookup]. apply select_target_groups_raises. eauto.
Qed.

Lemma select_bindings out :
  Forall binding out → select_target_groups out = Returned out.
Proof.
  induction 1 as [|v out (a & p & -> & Ha & Hp) _ IH]; [done|].
  simpl. unfold select_target_group. simpl. rewrite Ha. simpl.
  rewrite Hp. simpl. by rewrite IH.
Qed.

(** X11. The filter is idempotent: a response whose ['targetGroups'] are
    the bindings returned for another response gives these bindings back
    unchanged. *)
Theorem bindings_kept fetched out :
  get_target_groups_for_node fetched = Returned out →
  get_target_groups_for_node
    (Returned (JObj [("eks", JObj [("targetGroups", JArr out)])])) =
  Returned out.
Proof.
  intros Hout%returned_are_bindings.
  unfold get_target_groups_for_node. simpl. by apply select_bindings.
Qed.

(** ** The control-plane requests *)

(** X12. For a response that is a dict, [get_cluster_nodes] gives the
    value of ['items'] when the key is there and its value has a length (a
    list, a dict or a string), raises [TypeError] when the value has none
    ([None], a number, a boolean: [len] of line 43), and gives the empty
    list when the key is missing; an empty response ([None], [{}], [[]],
    ...) gives the empty list as well. *)
Theorem cluster_nodes_of_dict data :
  is_object data ∨ truthy data = false →
  Api.get_cluster_nodes (Returned data) =
  match field "items" data with
  | Some items => if sized items then Returned items else Raised "TypeError"
  | None => Returned (JArr [])
  end.
Proof.
  unfold Api.get_cluster_nodes. intros [[fields ->]|Hfalse].
  - cbn -[dict_lookup]. destruct fields as [|kv fields]; [done|].
    cbn -[dict_lookup].
    destruct (dict_lookup "items" (kv :: fields)) as [v|].
    + rewrite bool_decide_eq_true_2 by eauto. by destruct v.
    + by rewrite bool_decide_eq_false_2 by (by intros [? ?]).
  - simpl. rewrite Hfalse. simpl.
    destruct data as [| | | | |fields]; try done.
    by destruct fields.
Qed.

(** X13. An error of the request is never taken for an empty inventory:
    when the request, the status check or the decoding of the answer
    raises, [get_cluster_nodes] raises the same error. *)
Theorem fetch_error_not_empty got e :
  got = Raised e ∨
  (∃ resp, got = Returned resp ∧
     (Api.raise_for_status resp = Raised e ∨
      (Api.raise_for_status resp = Returned () ∧
       Api.response_json resp = Raised e))) →
  Api.get_cluster_nodes (Api.fetch_data got) = Raised e.
Proof.
  intros [->|(resp & -> & [Hs|[Hs Hj]])]; [done| |];
    unfold Api.fetch_data; simpl; rewrite Hs; [done|]. simpl. by rewrite Hj.
Qed.

(** ** More on the cycle *)

Lemma set_variable_unset v : set_variable v = None ↔ unset v.
Proof.
  unfold set_variable, unset. destruct v as [s|]; [|by split; eauto].
  case_bool_decide as Hs; split.
  - intros _. right. by rewrite Hs.
  - done.
  - done.
  - intros [?|[= ->]]; done.
Qed.

(** X14. The cycle stops for a missing variable exactly when one of
    [API_KEY], [CLUSTER_ID] and [AWS_REGION] is not set or is set to the
    empty string, whatever the services would answer. *)
Theorem missing_environment_iff env w :
  main env w = missing_environment ↔
  unset (API_KEY env) ∨ unset (CLUSTER_ID env) ∨ unset (AWS_REGION env).
Proof.
  rewrite <- !set_variable_unset. unfold main.
  destruct (set_variable (API_KEY env)) as [k|];
    [|split; [by left|done]].
  destruct (set_variable (CLUSTER_ID env)) as [c|];
    [|split; [by right; left|done]].
  destruct (set_variable (AWS_REGION env)) as [g|];
    [|split; [by right; right|done]].
  split; [|by intros [?|[?|?]]].
  destruct (get_cluster_nodes w k c) as [[|i items]|e]; [done..| |done].
  by destruct (process_nodes w k c g (i :: items) []) as [reports [e|]].
Qed.






(** X17. A node whose target groups cannot be fetched is left alone: its
    report is the error and no provider call is issued for it. *)
Theorem unfetched_node_left_alone env w k c n rep e :
  set_variable (API_KEY env) = Some k →
  set_variable (CLUSTER_ID env) = Some c →
  (n, rep) ∈ reports_of (main env w) →
  node_target_groups w k c
    (labels n !! "provisioner.cast.ai/node-configuration-id") = Raised e →
  (rep = skipped ∨ rep = target_groups_failed e) ∧ issued_calls rep = [].
Proof.
  intros Hk Hc Hin He.
  apply main_reports in Hin as (k' & c' & g & h & Hk' & Hc' & _ & ->).
  assert (k' = k) as -> by congruence.
  assert (c' = c) as -> by congruence.
  unfold process_node. rewrite He. destruct (eligible n); auto.
Qed.

(** X18. Every provider call of a cycle is issued for an eligible node,
    and a call that changes a membership names that node's instance. *)
Theorem calls_for_eligible_nodes env w n rep c :
  (n, rep) ∈ reports_of (main env w) → c ∈ issued_calls rep →
  eligible n = true ∧
  ∀ i, mutated_instance c = Some i → i = instanceId n.
Proof.
  intros Hin Hc.
  apply main_reports in Hin as (k & c' & g & h & _ & _ & _ & ->).
  unfold process_node in Hc.
  destruct (eligible n); [|by apply elem_of_nil in Hc].
  destruct (node_target_groups w k c' _) as [tgs|e];
    [|by apply elem_of_nil in Hc].
  destruct (boto3_client w g h) as [elb|e]; [|by apply elem_of_nil in Hc].
  split; [done|]. intros i Hi.
  by apply (mutations_of_instance _ _ _ _ _ Hc).
Qed.

(** ** The added properties on the samples *)

(** The instance a member of [B] only, [B] desired. *)
Lemma in_sync_changes_nothing_witness :
  let elb := sample_elb ["A"; "B"] ["B"] [] [] None in
  let tgs := [TargetGroup "B" 80] in
  let s := register_instance_to_target_groups elb "i-0a1" tgs in
  tgs ≠ [] ∧ paginate_error elb = None ∧
  (∀ a, a ∈ snapshot "i-0a1" (calls s) ↔ a ∈ arn <$> tgs) ∧
  (∀ c, c ∈ calls s → is_describe c) ∧
  registered (res s) = [] ∧ deregistered (res s) = [] ∧
  already_registered (res s) = snapshot "i-0a1" (calls s).
Proof.
  assert ([TargetGroup "B" 80] ≠ []) as Htgs by done.
  assert (paginate_error (sample_elb ["A"; "B"] ["B"] [] [] None) = None)
    as Hok by reflexivity.
  assert (∀ a,
    a ∈ snapshot "i-0a1"
          (calls (register_instance_to_target_groups
                    (sample_elb ["A"; "B"] ["B"] [] [] None) "i-0a1"
                    [TargetGroup "B" 80])) ↔
    a ∈ arn <$> [TargetGroup "B" 80]) as Hsync.
  { assert (snapshot "i-0a1"
              (calls (register_instance_to_target_groups
                        (sample_elb ["A"; "B"] ["B"] [] [] None) "i-0a1"
                        [TargetGroup "B" 80])) =
            arn <$> [TargetGroup "B" 80]) as ->
      by (vm_compute; reflexivity).
    done. }
  split; [exact Htgs|]. split; [exact Hok|]. split; [exact Hsync|].
  exact (in_sync_changes_nothing _ "i-0a1" _ Htgs Hok Hsync).
Defined.

(** On [sample_reconcile]: [A] is asked to be deregistered, [B] to be
    registered. *)
Lemma every_change_attempted_witness :
  let elb := sample_elb ["A"; "B"] ["A"] [] ["B"] None in
  let tgs := [TargetGroup "B" 80] in
  let s := register_instance_to_target_groups elb "i-0a1" tgs in
  tgs ≠ [] ∧ paginate_error elb = None ∧
  omap deregistration (request_of <$> calls s) =
    filter (λ a, a ∉ arn <$> tgs) (snapshot "i-0a1" (calls s)) ∧
  omap registration (request_of <$> calls s) =
    filter (λ a, a ∉ snapshot "i-0a1" (calls s)) (arn <$> tgs).
Proof.
  assert ([TargetGroup "B" 80] ≠ []) as Htgs by done.
  assert (paginate_error (sample_elb ["A"; "B"] ["A"] [] ["B"] None) = None)
    as Hok by reflexivity.
  split; [exact Htgs|]. split; [exact Hok|].
  exact (every_change_attempted _ "i-0a1" _ Htgs Hok).
Defined.

Lemma successes_reported_witness :
  let elb := sample_elb ["A"; "B"] ["A"] [] ["B"] None in
  let tgs := [TargetGroup "B" 80; TargetGroup "C" 80] in
  let s := register_instance_to_target_groups elb "i-0a1" tgs in
  tgs ≠ [] ∧
  registered (res s) = omap registered_by (calls s) ∧
  deregistered (res s) = omap deregistered_by (calls s).
Proof.
  assert ([TargetGroup "B" 80; TargetGroup "C" 80] ≠ []) as Htgs by done.
  split; [exact Htgs|].
  exact (successes_reported
           (sample_elb ["A"; "B"] ["A"] [] ["B"] None) "i-0a1" _ Htgs).
Defined.

(** A health query that raises while the desired set is empty. *)
Lemma empty_desired_failures_tagged_witness :
  let f := Failure (Some "A") "deregister" "AccessDenied" in
  f ∈ failed (res (register_instance_to_target_groups
                     (sample_elb ["A"] [] ["A"] [] None) "i-0a1" [])) ∧
  operation f = "deregister".
Proof.
  assert (Failure (Some "A") "deregister" "AccessDenied" ∈
          failed (res (register_instance_to_target_groups
                         (sample_elb ["A"] [] ["A"] [] None) "i-0a1" [])))
    as Hin by (vm_compute; left).
  split; [exact Hin|].
  exact (empty_desired_failures_tagged _ "i-0a1" _ Hin).
Defined.

Lemma returned_bindings_witness :
  let out := [JObj [("arn", JStr "tg_arn_2"); ("port", JNum 443)]] in
  get_target_groups_for_node (Returned zero_port_response) = Returned out ∧
  Forall binding out.
Proof.
  assert (get_target_groups_for_node (Returned zero_port_response) =
          Returned [JObj [("arn", JStr "tg_arn_2"); ("port", JNum 443)]])
    as Hout by (vm_compute; reflexivity).
  split; [exact Hout|].
  exact (returned_bindings _ _ Hout).
Defined.

Lemma malformed_entry_raises_witness :
  let eks := [("targetGroups",
      JArr [JObj [("arn", JStr "tg_arn_1"); ("port", JNum 80)];
            JStr "tg_arn_2"])] in
  let items := [JObj [("arn", JStr "tg_arn_1"); ("port", JNum 80)];
                JStr "tg_arn_2"] in
  dict_lookup "eks" malformed_response = Some (JObj eks) ∧
  dict_lookup "targetGroups" eks = Some (JArr items) ∧
  JStr "tg_arn_2" ∈ items ∧ ¬ is_object (JStr "tg_arn_2") ∧
  get_target_groups_for_node (Returned (JObj malformed_response)) =
  Raised "AttributeError".
Proof.
  assert (dict_lookup "eks" malformed_response =
          Some (JObj [("targetGroups",
            JArr [JObj [("arn", JStr "tg_arn_1"); ("port", JNum 80)];
                  JStr "tg_arn_2"])])) as Heks by reflexivity.
  assert (dict_lookup "targetGroups" [("targetGroups",
            JArr [JObj [("arn", JStr "tg_arn_1"); ("port", JNum 80)];
                  JStr "tg_arn_2"])] =
          Some (JArr [JObj [("arn", JStr "tg_arn_1"); ("port", JNum 80)];
                      JStr "tg_arn_2"])) as Htgs by reflexivity.
  assert (JStr "tg_arn_2" ∈
          [JObj [("arn", JStr "tg_arn_1"); ("port", JNum 80)];
           JStr "tg_arn_2"]) as Hin by (right; left).
  assert (¬ is_object (JStr "tg_arn_2")) as Hn by (by intros [? ?]).
  split; [exact Heks|]. split; [exact Htgs|]. split; [exact Hin|].
  split; [exact Hn|].
  exact (malformed_entry_raises _ _ _ _ Heks Htgs Hin Hn).
Defined.

Lemma bindings_kept_witness :
  let out := [JObj [("arn", JStr "tg_arn_2"); ("port", JNum 443)]] in
  get_target_groups_for_node (Returned zero_port_response) = Returned out ∧
  get_target_groups_for_node
    (Returned (JObj [("eks", JObj [("targetGroups", JArr out)])])) =
  Returned out.
Proof.
  assert (get_target_groups_for_node (Returned zero_port_response) =
          Returned [JObj [("arn", JStr "tg_arn_2"); ("port", JNum 443)]])
    as Hout by (vm_compute; reflexivity).
  split; [exact Hout|].
  exact (bindings_kept _ _ Hout).
Defined.

(** A response whose ['items'] is [None]. *)
Example sample_null_items :
  Api.get_cluster_nodes (Returned (JObj [("items", JNull)])) =
  Raised "TypeError".
Proof. reflexivity. Qed.

(** The response of the test [test_get_cluster_nodes]. *)
Lemma cluster_nodes_of_dict_witness :
  let data :=
    JObj [("items", JArr [JObj [("id", JStr "node1")];
                          JObj [("id", JStr "node2")]])] in
  (is_object data ∨ truthy data = false) ∧
  Api.get_cluster_nodes (Returned data) =
  match field "items" data with
  | Some items => if sized items then Returned items else Raised "TypeError"
  | None => Returned (JArr [])
  end.
Proof.
  assert (is_object
            (JObj [("items", JArr [JObj [("id", JStr "node1")];
                                   JObj [("id", JStr "node2")]])]) ∨
          truthy
            (JObj [("items", JArr [JObj [("id", JStr "node1")];
                                   JObj [("id", JStr "node2")]])]) = false)
    as Hd by (left; by eexists).
  split; [exact Hd|].
  exact (cluster_nodes_of_dict _ Hd).
Defined.

(** A request answered with an error status. *)
Lemma fetch_error_not_empty_witness :
  let resp := Api.Response (Raised "404 Client Error") (Returned JNull) in
  let got := Returned resp in
  (got = Raised "404 Client Error" ∨
   (∃ resp', got = Returned resp' ∧
      (Api.raise_for_status resp' = Raised "404 Client Error" ∨
       (Api.raise_for_status resp' = Returned () ∧
        Api.response_json resp' = Raised "404 Client Error")))) ∧
  Api.get_cluster_nodes (Api.fetch_data got) = Raised "404 Client Error".
Proof.
  assert (Returned (Api.Response (Raised "404 Client Error") (Returned JNull))
          = Raised "404 Client Error" ∨
          (∃ resp',
             Returned (Api.Response (Raised "404 Client Error")
                         (Returned JNull)) = Returned resp' ∧
             (Api.raise_for_status resp' = Raised "404 Client Error" ∨
              (Api.raise_for_status resp' = Returned () ∧
               Api.response_json resp' = Raised "404 Client Error"))))
    as Hgot.
  { right. eexists. split; [reflexivity|]. by left. }
  split; [exact Hgot|].
  exact (fetch_error_not_empty _ _ Hgot).
Defined.

(** An inventory with two items that cannot be read: the cycle ends at the
    first of them, and the ready node after them is not processed. *)
Example sample_aborted_cycle :
  main sample_environ broken_services =
  aborted [(draining_node, skipped)] "KeyError".
Proof. vm_compute. reflexivity. Qed.



Lemma unfetched_node_left_alone_witness :
  let rep := target_groups_failed "503 Server Error" in
  set_variable (API_KEY sample_environ) = Some "key" ∧
  set_variable (CLUSTER_ID sample_environ) = Some "cluster" ∧
  (ready_node, rep) ∈ reports_of (main sample_environ unfetched_services) ∧
  node_target_groups unfetched_services "key" "cluster"
    (labels ready_node !! "provisioner.cast.ai/node-configuration-id") =
  Raised "503 Server Error" ∧
  (rep = skipped ∨ rep = target_groups_failed "503 Server Error") ∧
  issued_calls rep = [].
Proof.
  assert (set_variable (API_KEY sample_environ) = Some "key") as Hk
    by reflexivity.
  assert (set_variable (CLUSTER_ID sample_environ) = Some "cluster") as Hc
    by reflexivity.
  assert ((ready_node, target_groups_failed "503 Server Error") ∈
          reports_of (main sample_environ unfetched_services)) as Hin.
  { vm_compute. left. }
  assert (node_target_groups unfetched_services "key" "cluster"
            (labels ready_node !! "provisioner.cast.ai/node-configuration-id")
          = Raised "503 Server Error") as He by reflexivity.
  split; [exact Hk|]. split; [exact Hc|]. split; [exact Hin|].
  split; [exact He|].
  exact (unfetched_node_left_alone _ _ _ _ _ _ _ Hk Hc Hin He).
Defined.

(** The registration of the ready node of the sample cycle. *)
Lemma calls_for_eligible_nodes_witness :
  let s := register_instance_to_target_groups
             (sample_elb ["A"; "B"] ["A"] [] [] None) "i-0a1"
             [TargetGroup "B" 80] in
  let rep := operation_results (res s) (calls s) in
  let c := register_targets_call "B" "i-0a1" (Returned ()) in
  (ready_node, rep) ∈ reports_of (main sample_environ sample_services) ∧
  c ∈ issued_calls rep ∧
  eligible ready_node = true ∧
  ∀ i, mutated_instance c = Some i → i = instanceId ready_node.
Proof.
  assert ((ready_node,
           operation_results
             (res (register_instance_to_target_groups
                     (sample_elb ["A"; "B"] ["A"] [] [] None) "i-0a1"
                     [TargetGroup "B" 80]))
             (calls (register_instance_to_target_groups
                       (sample_elb ["A"; "B"] ["A"] [] [] None) "i-0a1"
                       [TargetGroup "B" 80]))) ∈
          reports_of (main sample_environ sample_services)) as Hin.
  { vm_compute. right. left. }
  assert (register_targets_call "B" "i-0a1" (Returned ()) ∈
          issued_calls
            (operation_results
               (res (register_instance_to_target_groups
                       (sample_elb ["A"; "B"] ["A"] [] [] None) "i-0a1"
                       [TargetGroup "B" 80]))
               (calls (register_instance_to_target_groups
                         (sample_elb ["A"; "B"] ["A"] [] [] None) "i-0a1"
                         [TargetGroup "B" 80])))) as Hc.
  { vm_compute. do 3 right. left. }
  split; [exact Hin|]. split; [exact Hc|].
  exact (calls_for_eligible_nodes _ _ _ _ _ Hin Hc).
Defined.
